(** * DentalFaultDetection: the model-evaluation notebook

    A shallow embedding of [notebooks/model_evaluation.ipynb]: the annotation
    loader, the preprocessor, the dataset assembler, the metrics stage and the
    visualizer, followed by the properties the specification states about
    them.

    Modelling conventions.
    - A float is the rational it denotes ([Q]); every float operation of the
      notebook is the exact operation followed by [round64], rounding to the
      nearest binary64 number, ties to even, with gradual underflow.  Not a
      number, the infinities and the sign of zero are not represented: JSON
      numbers are taken to be finite, and integers in the annotation file to
      be small enough for the division by 128 not to raise [OverflowError].
      Rounding never overflows in the model; the one place where the notebook
      could overflow is the product with 128 in [denormalize_boxes], where
      the cast that follows gives the same integer for an infinity as for any
      finite value beyond the 64-bit range.  The outputs of the model are
      float32 numbers: their product with 128 is exact in float32 as in
      float64, up to the same overflow.  Sums are accumulated in index
      order.
    - [ndarray.astype(int)] is the cast of x86-64 Linux: truncation toward
      zero inside the range of int64, the least int64 outside of it.
      Arithmetic on int64 arrays wraps around.
    - The box head of the model yields one list of boxes per sample (an array
      of rank 3), the form the visualizer iterates over.
    - A decoded image is a grid of 8-bit BGR pixels; a preprocessed image is a
      grid of float triples.
    - The notebook is a straight-line script with side effects: it is written
      in a small monad that records the trace of external events and stops at
      the first raised exception, as Python does without a [try] block.
    - OpenCV, Keras, the JSON parser and the file system are external: they
      are collected in the record [Env]. *)

From Stdlib Require Import String Ascii.
From Stdlib Require Import List ZArith QArith Qround Qpower Bool Lia Arith.
From Stdlib Require Import Morphisms Lqa.
From Stdlib Require Floats Uint63.
From Stdlib Require Import Strings.Byte.
Import ListNotations.

Local Open Scope string_scope.
Local Open Scope list_scope.

(** ** Exceptions and results *)

Inductive exn : Type :=
| FileNotFoundError
| JSONDecodeError
| CvError
| OSError
| ValueError
| IndexError.

Inductive result (A : Type) : Type :=
| Ok (a : A)
| Err (e : exn).
Arguments Ok {A} a.
Arguments Err {A} e.

(** ** Data model *)

(** One fault record of the annotation file:
    [{"x1":..,"y1":..,"x2":..,"y2":..,"label":..}]. *)
Record Annotation : Type := mkAnnotation {
  x1 : Q; y1 : Q; x2 : Q; y2 : Q;
  label : string
}.

(** The object [json.load] returns: image name to list of records, in file
    order (the order [dict.items()] iterates in). *)
Definition AnnDict : Type := list (string * list Annotation).

(** A row [[x1, y1, x2, y2]] of a box array. *)
Record Box (A : Type) : Type := mkBox { bx1 : A; by1 : A; bx2 : A; by2 : A }.
Arguments mkBox {A} _ _ _ _.
Arguments bx1 {A} _.
Arguments by1 {A} _.
Arguments bx2 {A} _.
Arguments by2 {A} _.

Definition Pixel (A : Type) : Type := (A * A * A)%type.
Definition ImageU8 : Type := list (list (Pixel byte)).
Definition ImageF : Type := list (list (Pixel Q)).

(** The two heads of [model.predict]: per sample, a list of boxes and a list
    of fault-likelihood scores. *)
Definition Predictions : Type := (list (list (Box Q)) * list (list Q))%type.

Record Model : Type := mkModel {
  predict : list ImageF -> result Predictions
}.

(** ** Figures *)

Inductive Color : Type := Green | Red.

Inductive DrawCmd : Type :=
| Imshow (image : ImageF)
| AxisOff
| AddRectangle (x y w h : Z) (edgecolor : Color)
| Text (x y : Z) (s : string) (color : Color).

Definition Figure : Type := list DrawCmd.

(** ** External events *)

Inductive Msg : Type :=
| MsgLoadedAnnotations (n : nat)
| MsgDatasetPrepared (n : nat)
| MsgLoadedModel (path : string)
| MsgBboxMse (v : Q)
| MsgReportHeader
| MsgReport (report : string).

Inductive Event : Type :=
| EvOpen (path mode : string)
| EvImread (path : string)
| EvLoadModel (path : string)
| EvPredict (n : nat)
| EvPrint (m : Msg)
| EvShow (fig : Figure).

(** ** The environment of the script *)

Record Env : Type := mkEnv {
  (** [open(path, 'r')]: the content of the file, or the exception raised *)
  open_read : string -> result string;
  (** [json.load] on a file content, or the exception raised *)
  json_load : string -> result AnnDict;
  (** [cv2.imread]: the decoded image, or Python's [None] *)
  cv2_imread : string -> option ImageU8;
  (** [cv2.resize(image, (width, height))] on a decoded image *)
  cv2_resize_u8 : ImageU8 -> nat -> nat -> ImageU8;
  (** [cv2.resize] on a float image *)
  cv2_resize_f : ImageF -> nat -> nat -> ImageF;
  (** [tf.keras.models.load_model] *)
  keras_load_model : string -> result Model;
  (** [sklearn.metrics.classification_report] *)
  classification_report : list Z -> list Z -> result string
}.

(** ** The script monad: a trace of events and a result *)

Definition M (A : Type) : Type := (list Event * result A)%type.

Definition ret {A} (a : A) : M A := ([], Ok a).

Definition bind {A B} (m : M A) (f : A -> M B) : M B :=
  match m with
  | (t, Ok a) => let (t', r) := f a in (t ++ t', r)
  | (t, Err e) => (t, Err e)
  end.

Definition emit (e : Event) : M unit := ([e], Ok tt).
Definition raise {A} (e : exn) : M A := ([], Err e).
Definition lift {A} (r : result A) : M A := ([], r).

Notation "x <- m ;; k" := (bind m (fun x => k))
  (at level 61, m at next level, right associativity).
Notation "m ;;; k" := (bind m (fun _ => k))
  (at level 61, right associativity).

(** [for x in xs: body x] *)
Fixpoint for_each {A} (xs : list A) (body : A -> M unit) : M unit :=
  match xs with
  | [] => ret tt
  | x :: rest => body x ;;; for_each rest body
  end.

(** ** Machine arithmetic *)

Definition pow2 (k : Z) : Q := (2 ^ k)%Q.

(** For a positive [q], the exponent [e] with [2^e <= q < 2^(e+1)]. *)
Definition floor_log2 (q : Q) : Z :=
  let k := (Z.log2 (Qnum q) - Z.log2 (Zpos (Qden q)))%Z in
  if Qle_bool (pow2 k) q then k else (k - 1)%Z.

(** The nearest integer, ties to the even one. *)
Definition round_half_even (r : Q) : Z :=
  let f := Qfloor r in
  match (r - inject_Z f ?= 1 # 2)%Q with
  | Lt => f
  | Gt => (f + 1)%Z
  | Eq => if Z.even f then f else (f + 1)%Z
  end.

(** The exponent of the unit in the last place of a positive [q], in the
    binary format of [prec] significant bits whose least positive number is
    [2^emin]. *)
Definition ulp_exp (prec emin : Z) (q : Q) : Z :=
  Z.max (floor_log2 q - (prec - 1)) emin.

Definition round_pos (prec emin : Z) (q : Q) : Q :=
  let e := ulp_exp prec emin q in
  (inject_Z (round_half_even (q / pow2 e)) * pow2 e)%Q.

(** Rounding to the nearest number of the format, ties to even. *)
Definition round_float (prec emin : Z) (q : Q) : Q :=
  match (q ?= 0)%Q with
  | Eq => 0%Q
  | Gt => round_pos prec emin q
  | Lt => (- round_pos prec emin (- q))%Q
  end.

(** binary64: 53 significant bits, least positive number [2^-1074]. *)
Definition round64 : Q -> Q := round_float 53 (-1074).

(** The numbers of the format: [m * 2^e] with [m] of at most [prec] bits. *)
Definition representable (prec emin : Z) (q : Q) : Prop :=
  exists m e : Z,
    (Z.abs m < 2 ^ prec)%Z /\ (emin <= e)%Z /\ (q == inject_Z m * pow2 e)%Q.

(** Float division, product and the conversion of an integer. *)
Definition fdiv (x y : Q) : Q := round64 (x / y).
Definition fmul (x y : Q) : Q := round64 (x * y).
Definition to_float (z : Z) : Q := round64 (inject_Z z).

Definition int64_min : Z := (- 2 ^ 63)%Z.
Definition int64_max : Z := (2 ^ 63 - 1)%Z.

(** The value an int64 operation stores for the exact result [z]. *)
Definition wrap64 (z : Z) : Z := ((z + 2 ^ 63) mod 2 ^ 64 - 2 ^ 63)%Z.

(** Truncation toward zero. *)
Definition Qtrunc (q : Q) : Z := Z.quot (Qnum q) (Zpos (Qden q)).

(** ** Hardware floats, for comparison *)

(** The rational a finite hardware float denotes. *)
Definition float_value (f : PrimFloat.float) : option Q :=
  match FloatOps.Prim2SF f with
  | SpecFloat.S754_zero _ => Some 0%Q
  | SpecFloat.S754_finite s m e =>
      Some ((if s then - inject_Z (Zpos m) else inject_Z (Zpos m)) * pow2 e)%Q
  | _ => None
  end.

(** The hardware float [m * 2^e], for [0 <= m < 2^53]. *)
Definition hardware_float (m e : Z) : PrimFloat.float :=
  FloatOps.Z.ldexp (PrimFloat.of_uint63 (Uint63.of_Z m)) e.

Definition same_value (q : Q) (f : PrimFloat.float) : bool :=
  match float_value f with
  | Some q' => Qeq_bool q q'
  | None => false
  end.

(** ** Paths *)

Definition image_dir : string := "../data/images".
Definition test_annotation_file : string := "../data/test_annotations.json".
Definition model_path : string := "../models/dental_fault_detector.h5".

(** [os.path.join(dir, name)] on POSIX: an absolute [name] replaces [dir]. *)
Definition os_path_join (dir name : string) : string :=
  match name with
  | String "/"%char _ => name
  | _ =>
      if String.eqb dir "" then name
      else if String.eqb (substring (String.length dir - 1) 1 dir) "/"
           then (dir ++ name)%string
           else (dir ++ "/" ++ name)%string
  end.

(** ** Annotation loader *)

(** [with open(annotation_file, 'r') as f: return json.load(f)] *)
Definition load_annotations (env : Env) (annotation_file : string) : M AnnDict :=
  emit (EvOpen annotation_file "r") ;;;
  f <- lift (open_read env annotation_file) ;;
  lift (json_load env f).

(** ** Preprocessor *)

Definition image_size : Z := 128.

Definition u8_to_Q (b : byte) : Q := inject_Z (Z.of_N (Byte.to_N b)).

(** [image / 255.0] *)
Definition scale_pixels (image : ImageU8) : ImageF :=
  map (map (fun p : Pixel byte =>
              let '(b, g, r) := p in
              (fdiv (u8_to_Q b) 255,
               fdiv (u8_to_Q g) 255,
               fdiv (u8_to_Q r) 255)%Q)) image.

(** [[x1 / 128, y1 / 128, x2 / 128, y2 / 128]] *)
Definition normalized_box (ann : Annotation) : Box Q :=
  mkBox (fdiv (x1 ann) 128) (fdiv (y1 ann) 128)
        (fdiv (x2 ann) 128) (fdiv (y2 ann) 128).

(** [1 if label == 'Fault' else 0] *)
Definition class_id (lbl : string) : Z :=
  if String.eqb lbl "Fault" then 1%Z else 0%Z.

(** The [for ann in annotations] loop, with its two accumulators. *)
Fixpoint labels_loop (annotations : list Annotation)
         (boxes : list (Box Q)) (classes : list Z)
  : list (Box Q) * list Z :=
  match annotations with
  | [] => (boxes, classes)
  | ann :: rest =>
      labels_loop rest (boxes ++ [normalized_box ann])
                       (classes ++ [class_id (label ann)])
  end.

Definition load_and_preprocess_image (env : Env) (image_path : string)
           (annotations : list Annotation)
  : M (ImageF * list (Box Q) * list Z) :=
  emit (EvImread image_path) ;;;
  match cv2_imread env image_path with
  | None => raise CvError          (* cv2.resize(None, ...) raises *)
  | Some image =>
      let image := cv2_resize_u8 env image 128 128 in
      let image := scale_pixels image in
      let '(boxes, classes) := labels_loop annotations [] [] in
      ret (image, boxes, classes)
  end.

(** ** Dataset assembler *)

Fixpoint dataset_loop (env : Env) (items : AnnDict) (image_dir : string)
         (images : list ImageF) (boxes : list (list (Box Q)))
         (classes : list (list Z))
  : M (list ImageF * list (list (Box Q)) * list (list Z)) :=
  match items with
  | [] => ret (images, boxes, classes)
  | (image_name, anns) :: rest =>
      let image_path := os_path_join image_dir image_name in
      r <- load_and_preprocess_image env image_path anns ;;
      let '(img, b, c) := r in
      dataset_loop env rest image_dir
                   (images ++ [img]) (boxes ++ [b]) (classes ++ [c])
  end.

Definition create_test_dataset (env : Env) (annotation_dict : AnnDict)
           (image_dir : string)
  : M (list ImageF * list (list (Box Q)) * list (list Z)) :=
  dataset_loop env annotation_dict image_dir [] [] [].

(** ** Denormalization *)

(** [ndarray.astype(int)] on one float: truncation toward zero when the
    result is an int64, the least int64 otherwise. *)
Definition astype_int (q : Q) : Z :=
  let z := Qtrunc q in
  if ((int64_min <=? z) && (z <=? int64_max))%Z then z else int64_min.

(** [(boxes * image_size).astype(int)]: the integer [image_size] is converted
    to a float for the product. *)
Definition denormalize_boxes (boxes : list (Box Q)) (image_size : Z)
  : list (Box Z) :=
  map (fun b : Box Q =>
         mkBox (astype_int (fmul (bx1 b) (to_float image_size)))
               (astype_int (fmul (by1 b) (to_float image_size)))
               (astype_int (fmul (bx2 b) (to_float image_size)))
               (astype_int (fmul (by2 b) (to_float image_size)))) boxes.

(** ** Library array operations *)

(** [np.concatenate] over a sequence of arrays of equal rank: an empty
    sequence raises [ValueError]. *)
Definition np_concatenate {A} (arrays : list (list A)) : result (list A) :=
  match arrays with
  | [] => Err ValueError
  | _ => Ok (concat arrays)
  end.

Definition is_empty {A} (l : list A) : bool :=
  match l with [] => true | _ => false end.

(** [np.concatenate] over per-image box arrays built by [np.array(boxes)]:
    the array of an image without annotations has shape [(0,)], the others
    have shape [(n, 4)], and arrays of different rank cannot be joined. *)
Definition np_concatenate_rows {A} (arrays : list (list A)) : result (list A) :=
  match arrays with
  | [] => Err ValueError
  | _ =>
      if existsb is_empty arrays && existsb (fun a => negb (is_empty a)) arrays
      then Err ValueError
      else Ok (concat arrays)
  end.

(** [arr[i]] for a non-negative index. *)
Definition getitem {A} (arr : list A) (i : nat) : result A :=
  match nth_error arr i with
  | Some a => Ok a
  | None => Err IndexError
  end.

(** [(y_true - y_pred) ** 2] on one column of two int64 arrays. *)
Definition squared_errors (sel : Box Z -> Z) (y_true y_pred : list (Box Z))
  : list Z :=
  map (fun tp : Box Z * Box Z =>
         wrap64 (wrap64 (sel (fst tp) - sel (snd tp)) ^ 2))
      (combine y_true y_pred).

(** The sum of a float64 vector, accumulated in index order.  Where every
    partial sum is exact, as for integers whose sum stays below [2^53], the
    order of accumulation does not change the result. *)
Definition float_sum (l : list Q) : Q :=
  fold_left (fun acc x => round64 (acc + x)%Q) l 0%Q.

(** [np.average] of a non-empty float64 vector. *)
Definition np_average (l : list Q) : Q :=
  fdiv (float_sum l) (to_float (Z.of_nat (length l))).

(** [np.average] of a non-empty int64 vector: the entries are converted to
    float64 first. *)
Definition np_average_int (l : list Z) : Q :=
  np_average (map to_float l).

(** [sklearn.metrics.mean_squared_error] on two int64 arrays of rows of four
    columns, with the default [multioutput='uniform_average']: the float64
    mean over rows of each column's squared error, then the mean of the four
    columns.  Arrays of different length, or without rows, raise
    [ValueError]. *)
Definition mean_squared_error (y_true y_pred : list (Box Z)) : result Q :=
  if negb (length y_true =? length y_pred)%nat then Err ValueError
  else if (length y_true =? 0)%nat then Err ValueError
  else
    let output_errors :=
      [ np_average_int (squared_errors bx1 y_true y_pred);
        np_average_int (squared_errors by1 y_true y_pred);
        np_average_int (squared_errors bx2 y_true y_pred);
        np_average_int (squared_errors by2 y_true y_pred) ] in
    Ok (np_average output_errors).

(** ** Metrics stage *)

(** [x > y] on floats *)
Definition Qgtb (x y : Q) : bool := negb (Qle_bool x y).

(** [test_boxes_denorm = [denormalize_boxes(b) for b in test_boxes]] *)
Definition denormalize_each (boxes : list (list (Box Q))) : list (list (Box Z)) :=
  map (fun b => denormalize_boxes b image_size) boxes.

(** [mean_squared_error(np.concatenate(test_boxes_denorm),
                        np.concatenate(predicted_boxes_denorm))] *)
Definition bbox_regression_error
           (test_boxes_denorm predicted_boxes_denorm : list (list (Box Z)))
  : result Q :=
  match np_concatenate_rows test_boxes_denorm with
  | Err e => Err e
  | Ok y_true =>
      match np_concatenate predicted_boxes_denorm with
      | Err e => Err e
      | Ok y_pred => mean_squared_error y_true y_pred
      end
  end.

(** [(predicted_classes > 0.5).astype(int)] *)
Definition threshold_classes (predicted_classes : list (list Q))
  : list (list Z) :=
  map (map (fun s : Q => if Qgtb s (1 # 2) then 1%Z else 0%Z)) predicted_classes.

(** ** Visualizer *)

(** The [for box, cls in zip(true_boxes, true_classes)] loop. *)
Definition draw_true_boxes (true_boxes : list (Box Z)) (true_classes : list Z)
  : list DrawCmd :=
  flat_map (fun bc : Box Z * Z =>
              let (box, cls) := bc in
              if (cls =? 1)%Z then
                [ AddRectangle (bx1 box) (by1 box)
                               (bx2 box - bx1 box) (by2 box - by1 box) Green;
                  Text (bx1 box) (by1 box - 5) "True Fault" Green ]
              else [])
           (combine true_boxes true_classes).

(** The [for box, cls in zip(pred_boxes, pred_classes)] loop. *)
Definition draw_pred_boxes (pred_boxes : list (Box Z)) (pred_classes : list Z)
           (threshold : Q) : list DrawCmd :=
  flat_map (fun bc : Box Z * Z =>
              let (box, cls) := bc in
              if Qgtb (inject_Z cls) threshold then
                [ AddRectangle (bx1 box) (by1 box)
                               (bx2 box - bx1 box) (by2 box - by1 box) Red;
                  Text (bx1 box) (by1 box - 5) "Pred Fault" Red ]
              else [])
           (combine pred_boxes pred_classes).

Definition visualize_predictions (env : Env) (image : ImageF)
           (true_boxes pred_boxes : list (Box Z))
           (true_classes pred_classes : list Z) (threshold : Q) : M unit :=
  let image := cv2_resize_f env image 128 128 in
  emit (EvShow ([Imshow image; AxisOff]
                  ++ draw_true_boxes true_boxes true_classes
                  ++ draw_pred_boxes pred_boxes pred_classes threshold)).

(** The body of the display loop:
    [visualize_predictions(test_images[i], test_boxes_denorm[i],
     predicted_boxes_denorm[i], test_classes[i], predicted_classes_binary[i])],
    the arguments being evaluated from left to right. *)
Definition visualize_sample (env : Env)
           (test_images : list ImageF)
           (test_boxes_denorm predicted_boxes_denorm : list (list (Box Z)))
           (test_classes predicted_classes_binary : list (list Z))
           (i : nat) : M unit :=
  image <- lift (getitem test_images i) ;;
  tb <- lift (getitem test_boxes_denorm i) ;;
  pb <- lift (getitem predicted_boxes_denorm i) ;;
  tc <- lift (getitem test_classes i) ;;
  pc <- lift (getitem predicted_classes_binary i) ;;
  visualize_predictions env image tb pb tc pc (1 # 2).

(** [for i in range(5): visualize_predictions(...)] *)
Definition visualization_stage (env : Env)
           (test_images : list ImageF)
           (test_boxes_denorm predicted_boxes_denorm : list (list (Box Z)))
           (test_classes predicted_classes_binary : list (list Z)) : M unit :=
  for_each (seq 0 5)
           (visualize_sample env test_images test_boxes_denorm
                             predicted_boxes_denorm test_classes
                             predicted_classes_binary).

(** ** The script *)

(** The names the script has bound when it ends. *)
Record Globals : Type := mkGlobals {
  g_test_annotations : AnnDict;
  g_test_images : list ImageF;
  g_test_boxes : list (list (Box Q));
  g_test_classes : list (list Z);
  g_predicted_boxes : list (list (Box Q));
  g_predicted_classes : list (list Q);
  g_test_boxes_denorm : list (list (Box Z));
  g_predicted_boxes_denorm : list (list (Box Z));
  g_bbox_mse : Q;
  g_predicted_classes_binary : list (list Z);
  g_test_classes_flat : list Z;
  g_predicted_classes_flat : list Z
}.

Definition script (env : Env) : M Globals :=
  test_annotations <- load_annotations env test_annotation_file ;;
  emit (EvPrint (MsgLoadedAnnotations (length test_annotations))) ;;;
  ds <- create_test_dataset env test_annotations image_dir ;;
  let '(test_images, test_boxes, test_classes) := ds in
  emit (EvPrint (MsgDatasetPrepared (length test_images))) ;;;
  emit (EvLoadModel model_path) ;;;
  model <- lift (keras_load_model env model_path) ;;
  emit (EvPrint (MsgLoadedModel model_path)) ;;;
  emit (EvPredict (length test_images)) ;;;
  predictions <- lift (predict model test_images) ;;
  let predicted_boxes := fst predictions in
  let predicted_classes := snd predictions in
  let test_boxes_denorm := denormalize_each test_boxes in
  let predicted_boxes_denorm := denormalize_each predicted_boxes in
  bbox_mse <- lift (bbox_regression_error test_boxes_denorm
                                          predicted_boxes_denorm) ;;
  emit (EvPrint (MsgBboxMse bbox_mse)) ;;;
  let predicted_classes_binary := threshold_classes predicted_classes in
  test_classes_flat <- lift (np_concatenate test_classes) ;;
  predicted_classes_flat <- lift (np_concatenate predicted_classes_binary) ;;
  emit (EvPrint MsgReportHeader) ;;;
  report <- lift (classification_report env test_classes_flat
                                        predicted_classes_flat) ;;
  emit (EvPrint (MsgReport report)) ;;;
  visualization_stage env test_images test_boxes_denorm predicted_boxes_denorm
                      test_classes predicted_classes_binary ;;;
  ret (mkGlobals test_annotations test_images test_boxes test_classes
                 predicted_boxes predicted_classes test_boxes_denorm
                 predicted_boxes_denorm bbox_mse predicted_classes_binary
                 test_classes_flat predicted_classes_flat).

(** ** Specification-side notions *)

Definition in_unit (q : Q) : Prop := (0 <= q /\ q <= 1)%Q.

Definition box_in_unit (b : Box Q) : Prop :=
  in_unit (bx1 b) /\ in_unit (by1 b) /\ in_unit (bx2 b) /\ in_unit (by2 b).

Definition in_frame (q : Q) : Prop := (0 <= q /\ q <= inject_Z 128)%Q.

(** All four pixel coordinates of a record lie inside the 128-pixel frame. *)
Definition ann_in_frame (a : Annotation) : Prop :=
  in_frame (x1 a) /\ in_frame (y1 a) /\ in_frame (x2 a) /\ in_frame (y2 a).

(** An integer of magnitude below [2^53], the integers binary64 holds
    without rounding. *)
Definition exact_integer (q : Q) : Prop :=
  exists z : Z, (Z.abs z < 2 ^ 53)%Z /\ (q == inject_Z z)%Q.

Definition ann_exact_integers (a : Annotation) : Prop :=
  exact_integer (x1 a) /\ exact_integer (y1 a) /\
  exact_integer (x2 a) /\ exact_integer (y2 a).

(** The pixel box [b] is exactly the box of record [a]. *)
Definition recovers (a : Annotation) (b : Box Z) : Prop :=
  (inject_Z (bx1 b) == x1 a /\ inject_Z (by1 b) == y1 a /\
   inject_Z (bx2 b) == x2 a /\ inject_Z (by2 b) == y2 a)%Q.

Definition box_coords {A} (b : Box A) : list A := [bx1 b; by1 b; bx2 b; by2 b].

(** The pixel-space row of a normalized box: every coordinate multiplied by
    128 and cast to an integer. *)
Definition pixel_box (b : Box Q) : Box Z :=
  mkBox (astype_int (fmul (bx1 b) 128)) (astype_int (fmul (by1 b) 128))
        (astype_int (fmul (bx2 b) 128)) (astype_int (fmul (by2 b) 128)).

Definition Qsum (l : list Q) : Q := fold_right Qplus 0%Q l.

Definition Zsum (l : list Z) : Z := fold_right Z.add 0%Z l.

(** The squared differences of one column of two pixel arrays, as
    integers. *)
Definition squared_differences (sel : Box Z -> Z) (y_true y_pred : list (Box Z))
  : list Z :=
  map (fun tp : Box Z * Box Z => ((sel (fst tp) - sel (snd tp)) ^ 2)%Z)
      (combine y_true y_pred).

(** Every coordinate of a pixel box has magnitude at most [bound]. *)
Definition box_below (bound : Z) (b : Box Z) : Prop :=
  (Z.abs (bx1 b) <= bound /\ Z.abs (by1 b) <= bound /\
   Z.abs (bx2 b) <= bound /\ Z.abs (by2 b) <= bound)%Z.

(** [a] is [A] up to [k] roundings to binary64: each rounding changes a
    number by a factor between [1 - 2^-53] and [1 + 2^-53]. *)
Definition within (k : Z) (A a : Q) : Prop :=
  (A * (1 - pow2 (-53)) ^ k <= a /\ a <= A * (1 + pow2 (-53)) ^ k)%Q.

(** Mean squared error of two coordinate vectors, as the glossary defines
    it: the mean of the squared differences. *)
Definition mse (truth pred : list Q) : Q :=
  (Qsum (map (fun tp : Q * Q => (fst tp - snd tp) * (fst tp - snd tp))
             (combine truth pred))
   / inject_Z (Z.of_nat (length truth)))%Q.

Definition pixel_in_unit (p : Pixel Q) : Prop :=
  let '(b, g, r) := p in in_unit b /\ in_unit g /\ in_unit r.

(** The pixel in row [i] and column [j] of an image, if there is one. *)
Definition pixel_at {A} (image : list (list A)) (i j : nat) : option A :=
  match nth_error image i with
  | Some row => nth_error row j
  | None => None
  end.

(** A decoded pixel with each channel divided by 255. *)
Definition scaled_pixel (p : Pixel byte) : Pixel Q :=
  let '(b, g, r) := p in
  (fdiv (u8_to_Q b) 255, fdiv (u8_to_Q g) 255, fdiv (u8_to_Q r) 255).

(** A grid of [h] rows of [w] pixels. *)
Definition has_shape {A} (image : list (list A)) (h w : nat) : Prop :=
  length image = h /\ Forall (fun row => length row = w) image.

(** What OpenCV documents of [cv2.resize(image, (width, height))]: the result
    has [height] rows of [width] pixels. *)
Definition resize_contract (env : Env) : Prop :=
  forall image w h, has_shape (cv2_resize_u8 env image w h) h w.



(** The file opens of a trace, with their modes. *)
Definition opens (tr : list Event) : list (string * string) :=
  flat_map (fun e => match e with EvOpen p m => [(p, m)] | _ => [] end) tr.

(** A computation that opens no file. *)
Definition quiet {A} (m : M A) : Prop := opens (fst m) = [].

(** The figure the visualization stage shows for sample [i]. *)
Definition sample_figure (env : Env) (test_images : list ImageF)
           (test_boxes_denorm predicted_boxes_denorm : list (list (Box Z)))
           (test_classes predicted_classes_binary : list (list Z)) (i : nat)
  : Figure :=
  [Imshow (cv2_resize_f env (nth i test_images []) 128 128); AxisOff]
    ++ draw_true_boxes (nth i test_boxes_denorm []) (nth i test_classes [])
    ++ draw_pred_boxes (nth i predicted_boxes_denorm [])
                       (nth i predicted_classes_binary []) (1 # 2).

(** The event of showing that figure. *)
Definition shown_sample (env : Env) (test_images : list ImageF)
           (test_boxes_denorm predicted_boxes_denorm : list (list (Box Z)))
           (test_classes predicted_classes_binary : list (list Z)) (i : nat)
  : Event :=
  EvShow (sample_figure env test_images test_boxes_denorm
                        predicted_boxes_denorm test_classes
                        predicted_classes_binary i).

(** The image paths the dataset assembler reads, in order. *)
Definition image_paths (d : AnnDict) : list string :=
  map (fun kv => os_path_join image_dir (fst kv)) d.

(** The trace of a run up to the display loop: [v] is the score printed and
    [report] the classification report. *)
Definition trace_before_visualization (d : AnnDict) (v : Q) (report : string)
  : list Event :=
  [EvOpen test_annotation_file "r"; EvPrint (MsgLoadedAnnotations (length d))]
    ++ map EvImread (image_paths d)
    ++ [EvPrint (MsgDatasetPrepared (length d)); EvLoadModel model_path;
        EvPrint (MsgLoadedModel model_path); EvPredict (length d);
        EvPrint (MsgBboxMse v); EvPrint MsgReportHeader;
        EvPrint (MsgReport report)].

(** The preprocessed image of a readable file. *)
Definition preprocessed_image (env : Env) (path : string) : ImageF :=
  match cv2_imread env path with
  | Some raw => scale_pixels (cv2_resize_u8 env raw 128 128)
  | None => []
  end.

(** The image of a dictionary entry decodes. *)
Definition readable (env : Env) (kv : string * list Annotation) : Prop :=
  cv2_imread env (os_path_join image_dir (fst kv)) <> None.

(** The three arrays the dataset assembler builds from a dictionary whose
    images all decode. *)
Definition dataset_images (env : Env) (d : AnnDict) : list ImageF :=
  map (fun kv => preprocessed_image env (os_path_join image_dir (fst kv))) d.

Definition dataset_boxes (d : AnnDict) : list (list (Box Q)) :=
  map (fun kv => map normalized_box (snd kv)) d.

Definition dataset_classes (d : AnnDict) : list (list Z) :=
  map (fun kv => map (fun a => class_id (label a)) (snd kv)) d.

(** The names bound at the end of a run over dictionary [d] with
    predictions [pb] and [pc]. *)
Definition final_globals (env : Env) (d : AnnDict)
           (pb : list (list (Box Q))) (pc : list (list Q))
           (v : Q) (tflat pflat : list Z) : Globals :=
  mkGlobals d (dataset_images env d) (dataset_boxes d) (dataset_classes d)
            pb pc (denormalize_each (dataset_boxes d)) (denormalize_each pb)
            v (threshold_classes pc) tflat pflat.

(** The sample the display loop shows at index [i] in such a run. *)
Definition shown_in_run (env : Env) (d : AnnDict)
           (pb : list (list (Box Q))) (pc : list (list Q)) (i : nat) : Event :=
  shown_sample env (dataset_images env d) (denormalize_each (dataset_boxes d))
               (denormalize_each pb) (dataset_classes d)
               (threshold_classes pc) i.

(** ** A concrete environment *)

(** Nearest-neighbour resampling to [h] rows of [w] pixels. *)
Definition nn_resize {A} (d : A) (image : list (list A)) (w h : nat)
  : list (list A) :=
  map (fun r =>
         map (fun c =>
                nth (c * length (nth 0 image []) / w)
                    (nth (r * length image / h) image []) d)
             (seq 0 w))
      (seq 0 h).

Definition sample_ann (lbl : string) : Annotation :=
  mkAnnotation (inject_Z 32) (inject_Z 16) (inject_Z 96) (inject_Z 64) lbl.

Definition sample_ann_void : Annotation :=
  mkAnnotation (inject_Z 0) (inject_Z 0) (inject_Z 64) (inject_Z 64) "Void".

Definition sample_annotations : AnnDict :=
  [ ("a.png", [sample_ann "Fault"]);
    ("b.png", [sample_ann_void]);
    ("c.png", [sample_ann "Fault"]);
    ("d.png", [sample_ann "Uneven Finish Line"]);
    ("e.png", [sample_ann "Fault"]) ].

Definition sample_model : Model :=
  mkModel (fun images =>
             Ok (map (fun _ => [mkBox (1 # 4) (1 # 8) (3 # 4) (1 # 2)]) images,
                 map (fun _ => [3 # 4]) images)).

(** An environment: [file] is what opening the annotation file gives,
    [annotations] what it parses to, [unreadable] the image name that does
    not decode, [model] what loading the model gives. *)
Definition sample_env (file : result string) (annotations : AnnDict)
           (unreadable : string) (model : result Model) : Env :=
  mkEnv (fun _ => file)
        (fun content =>
           if String.eqb content "annotations" then Ok annotations
           else Err JSONDecodeError)
        (fun path =>
           if String.eqb path (os_path_join image_dir unreadable) then None
           else Some [[(x00, x80, xff)]])
        (nn_resize (x00, x00, x00))
        (nn_resize (0, 0, 0)%Q)
        (fun _ => model)
        (fun _ _ => Ok "report").

Definition good_env : Env :=
  sample_env (Ok "annotations") sample_annotations "missing.png"
             (Ok sample_model).

(** The same over the first two images only. *)
Definition small_env : Env :=
  sample_env (Ok "annotations") (firstn 2 sample_annotations) "missing.png"
             (Ok sample_model).

(** A preprocessed one-pixel image. *)
Definition sample_image : ImageF := [[(0, 1 # 2, 1)%Q]].

(** ** Further specification-side notions *)

(** The same relation on each of the four coordinates of two boxes. *)
Definition coordinatewise {A B} (R : A -> B -> Prop) (b : Box A) (b' : Box B)
  : Prop :=
  R (bx1 b) (bx1 b') /\ R (by1 b) (by1 b') /\
  R (bx2 b) (bx2 b') /\ R (by2 b) (by2 b').

(** [p] is [q] rounded toward zero: it lies between 0 and [q], less than one
    unit away from [q]. *)
Definition truncation_of (q : Q) (p : Z) : Prop :=
  ((0 <= q -> inject_Z p <= q /\ q < inject_Z p + 1) /\
   (q <= 0 -> q <= inject_Z p /\ inject_Z p - 1 < q))%Q.





(** A binary64 number whose product with 128 is in the range of int64. *)
Definition scales_to_int64 (c : Q) : Prop :=
  representable 53 (-1074) c /\
  (inject_Z int64_min <= c * 128)%Q /\ (c * 128 <= inject_Z int64_max)%Q.

Definition box_scales_to_int64 (b : Box Q) : Prop :=
  scales_to_int64 (bx1 b) /\ scales_to_int64 (by1 b) /\
  scales_to_int64 (bx2 b) /\ scales_to_int64 (by2 b).

(** Every coordinate of a pixel box lies in [0, size]. *)
Definition box_within (size : Z) (b : Box Z) : Prop :=
  (0 <= bx1 b <= size /\ 0 <= by1 b <= size /\
   0 <= bx2 b <= size /\ 0 <= by2 b <= size)%Z.



(** The trace of a run up to and including the call of [model.predict]. *)
Definition trace_until_predict (d : AnnDict) : list Event :=
  [EvOpen test_annotation_file "r"; EvPrint (MsgLoadedAnnotations (length d))]
    ++ map EvImread (image_paths d)
    ++ [EvPrint (MsgDatasetPrepared (length d)); EvLoadModel model_path;
        EvPrint (MsgLoadedModel model_path); EvPredict (length d)].

(** The figures of a trace. *)
Definition shows (tr : list Event) : list Figure :=
  flat_map (fun e => match e with EvShow fig => [fig] | _ => [] end) tr.

(** What an event of a run says about the dictionary [d] it loaded: every
    image read is the file of one of its keys, resolved against
    [image_dir], and every count printed or predicted on is its number of
    entries. *)
Definition about_dict (d : AnnDict) (e : Event) : Prop :=
  match e with
  | EvImread p =>
      exists kv, In kv d /\ p = os_path_join image_dir (fst kv)
  | EvPrint (MsgLoadedAnnotations n) => n = length d
  | EvPrint (MsgDatasetPrepared n) => n = length d
  | EvPredict n => n = length d
  | _ => True
  end.

(** The shapes a run of the script can take: the trace and the result of
    each way it can end. *)
Inductive run_of (env : Env) : list Event -> result Globals -> Prop :=
| RunOpenFails e :
    open_read env test_annotation_file = Err e ->
    run_of env [EvOpen test_annotation_file "r"] (Err e)
| RunJsonFails content e :
    open_read env test_annotation_file = Ok content ->
    json_load env content = Err e ->
    run_of env [EvOpen test_annotation_file "r"] (Err e)
| RunImreadFails content done name anns rest :
    open_read env test_annotation_file = Ok content ->
    json_load env content = Ok (done ++ (name, anns) :: rest) ->
    Forall (readable env) done ->
    cv2_imread env (os_path_join image_dir name) = None ->
    run_of env
      ([EvOpen test_annotation_file "r";
        EvPrint (MsgLoadedAnnotations
                   (length (done ++ (name, anns) :: rest)))]
         ++ map EvImread (image_paths (done ++ [(name, anns)])))
      (Err CvError)
| RunModelFails content d e :
    open_read env test_annotation_file = Ok content ->
    json_load env content = Ok d ->
    Forall (readable env) d ->
    keras_load_model env model_path = Err e ->
    run_of env
      ([EvOpen test_annotation_file "r";
        EvPrint (MsgLoadedAnnotations (length d))]
         ++ map EvImread (image_paths d)
         ++ [EvPrint (MsgDatasetPrepared (length d)); EvLoadModel model_path])
      (Err e)
| RunPredictFails content d model e :
    open_read env test_annotation_file = Ok content ->
    json_load env content = Ok d ->
    Forall (readable env) d ->
    keras_load_model env model_path = Ok model ->
    predict model (dataset_images env d) = Err e ->
    run_of env (trace_until_predict d) (Err e)
| RunMetricsFail content d model pb pc e :
    open_read env test_annotation_file = Ok content ->
    json_load env content = Ok d ->
    Forall (readable env) d ->
    keras_load_model env model_path = Ok model ->
    predict model (dataset_images env d) = Ok (pb, pc) ->
    bbox_regression_error (denormalize_each (dataset_boxes d))
                          (denormalize_each pb) = Err e ->
    run_of env (trace_until_predict d) (Err e)
| RunFlattenFails content d model pb pc v e :
    open_read env test_annotation_file = Ok content ->
    json_load env content = Ok d ->
    Forall (readable env) d ->
    keras_load_model env model_path = Ok model ->
    predict model (dataset_images env d) = Ok (pb, pc) ->
    bbox_regression_error (denormalize_each (dataset_boxes d))
                          (denormalize_each pb) = Ok v ->
    (np_concatenate (dataset_classes d) = Err e \/
     (exists tflat, np_concatenate (dataset_classes d) = Ok tflat) /\
     np_concatenate (threshold_classes pc) = Err e) ->
    run_of env (trace_until_predict d ++ [EvPrint (MsgBboxMse v)]) (Err e)
| RunReportFails content d model pb pc v tflat pflat e :
    open_read env test_annotation_file = Ok content ->
    json_load env content = Ok d ->
    Forall (readable env) d ->
    keras_load_model env model_path = Ok model ->
    predict model (dataset_images env d) = Ok (pb, pc) ->
    bbox_regression_error (denormalize_each (dataset_boxes d))
                          (denormalize_each pb) = Ok v ->
    np_concatenate (dataset_classes d) = Ok tflat ->
    np_concatenate (threshold_classes pc) = Ok pflat ->
    classification_report env tflat pflat = Err e ->
    run_of env
      (trace_until_predict d
         ++ [EvPrint (MsgBboxMse v); EvPrint MsgReportHeader])
      (Err e)
| RunDisplays content d model pb pc v tflat pflat report t r :
    open_read env test_annotation_file = Ok content ->
    json_load env content = Ok d ->
    Forall (readable env) d ->
    keras_load_model env model_path = Ok model ->
    predict model (dataset_images env d) = Ok (pb, pc) ->
    bbox_regression_error (denormalize_each (dataset_boxes d))
                          (denormalize_each pb) = Ok v ->
    np_concatenate (dataset_classes d) = Ok tflat ->
    np_concatenate (threshold_classes pc) = Ok pflat ->
    classification_report env tflat pflat = Ok report ->
    (visualization_stage env (dataset_images env d)
       (denormalize_each (dataset_boxes d)) (denormalize_each pb)
       (dataset_classes d) (threshold_classes pc) ;;;
     ret (final_globals env d pb pc v tflat pflat)) = (t, r) ->
    run_of env (trace_before_visualization d v report ++ t) r.

(** A model whose prediction fails, one that returns no box at all, and an
    environment whose classification report fails. *)
Definition failing_model : Model := mkModel (fun _ => Err OSError).

Definition boxless_model : Model :=
  mkModel (fun images => Ok (map (fun _ => []) images,
                             map (fun _ => []) images)).

Definition failing_report_env : Env :=
  mkEnv (open_read good_env) (json_load good_env) (cv2_imread good_env)
        (cv2_resize_u8 good_env) (cv2_resize_f good_env)
        (keras_load_model good_env) (fun _ _ => Err ValueError).

(** * Properties *)

(** ** The script monad *)

Lemma bind_ok {A B} (m : M A) (f : A -> M B) t a :
  m = (t, Ok a) -> bind m f = (t ++ fst (f a), snd (f a)).
Proof. intros ->. unfold bind. now destruct (f a). Qed.

Lemma bind_err {A B} (m : M A) (f : A -> M B) t e :
  m = (t, Err e) -> bind m f = (t, Err e).
Proof. now intros ->. Qed.

Lemma bind_inv {A B} (m : M A) (f : A -> M B) tr r :
  bind m f = (tr, r) ->
  (exists e, m = (tr, Err e) /\ r = Err e) \/
  (exists t a t', m = (t, Ok a) /\ f a = (t', r) /\ tr = t ++ t').
Proof.
  destruct m as [t [a | e]]; unfold bind.
  - destruct (f a) as [t' r'] eqn:Hf. intros [= <- <-].
    right. now exists t, a, t'.
  - intros [= <- <-]. left. now exists e.
Qed.

(** ** The preprocessor's label loop *)

Lemma labels_loop_spec anns : forall boxes classes,
  labels_loop anns boxes classes =
  (boxes ++ map normalized_box anns,
   classes ++ map (fun a => class_id (label a)) anns).
Proof.
  induction anns as [| a rest IH]; intros boxes classes; simpl.
  - now rewrite !app_nil_r.
  - rewrite IH, <- !app_assoc. reflexivity.
Qed.

Lemma load_and_preprocess_image_ok env path anns tr img boxes classes :
  load_and_preprocess_image env path anns = (tr, Ok (img, boxes, classes)) ->
  exists raw,
    cv2_imread env path = Some raw /\
    tr = [EvImread path] /\
    img = scale_pixels (cv2_resize_u8 env raw 128 128) /\
    boxes = map normalized_box anns /\
    classes = map (fun a => class_id (label a)) anns.
Proof.
  unfold load_and_preprocess_image, bind, emit.
  destruct (cv2_imread env path) as [raw |]; [| discriminate].
  rewrite labels_loop_spec. simpl. intros [= <- <- <- <-].
  now exists raw.
Qed.

Lemma load_and_preprocess_image_readable env path anns raw :
  cv2_imread env path = Some raw ->
  load_and_preprocess_image env path anns =
  ([EvImread path],
   Ok (scale_pixels (cv2_resize_u8 env raw 128 128),
       map normalized_box anns,
       map (fun a => class_id (label a)) anns)).
Proof.
  intros H. unfold load_and_preprocess_image, bind, emit. rewrite H.
  now rewrite labels_loop_spec.
Qed.

Lemma load_and_preprocess_image_unreadable env path anns :
  cv2_imread env path = None ->
  load_and_preprocess_image env path anns = ([EvImread path], Err CvError).
Proof.
  intros H. unfold load_and_preprocess_image, bind, emit. now rewrite H.
Qed.

(** ** Machine arithmetic *)

Lemma two_neq_0 : ~ 2 == 0.
Proof. discriminate. Qed.

Lemma one_lt_two : 1 < 2.
Proof. reflexivity. Qed.

Lemma pow2_pos (k : Z) : 0 < pow2 k.
Proof. apply Qpower_0_lt. reflexivity. Qed.

Lemma pow2_neq_0 (k : Z) : ~ pow2 k == 0.
Proof. apply Qpower_not_0, two_neq_0. Qed.

Lemma pow2_plus (a b : Z) : pow2 (a + b) == pow2 a * pow2 b.
Proof. apply Qpower_plus, two_neq_0. Qed.

Lemma pow2_minus (a b : Z) : pow2 (a - b) == pow2 a / pow2 b.
Proof. apply Qpower_minus, two_neq_0. Qed.

Lemma pow2_inject (k : Z) : (0 <= k)%Z -> pow2 k == inject_Z (2 ^ k).
Proof. intros H. symmetry. apply (Zpower_Qpower 2 k H). Qed.

Lemma pow2_lt_inv (a b : Z) : pow2 a < pow2 b -> (a < b)%Z.
Proof. intros H. exact (Qpower_lt_compat_l_inv 2 a b H one_lt_two). Qed.

Lemma pow2_le (a b : Z) : (a <= b)%Z -> pow2 a <= pow2 b.
Proof. intros H. apply Qpower_le_compat_l; [exact H | discriminate]. Qed.

(** [floor_log2] brackets a positive rational between two consecutive
    powers of two. *)
Lemma floor_log2_spec (q : Q) :
  0 < q -> pow2 (floor_log2 q) <= q /\ q < pow2 (floor_log2 q + 1).
Proof.
  intros Hq. unfold floor_log2.
  destruct q as [n d]. cbn [Qnum Qden].
  assert (Hn : (0 < n)%Z).
  { unfold Qlt in Hq. cbn in Hq. lia. }
  set (a := Z.log2 n). set (b := Z.log2 (Z.pos d)).
  assert (Ha : (0 <= a)%Z) by apply Z.log2_nonneg.
  assert (Hb : (0 <= b)%Z) by apply Z.log2_nonneg.
  destruct (Z.log2_spec n Hn) as [Ha1 Ha2]. fold a in Ha1, Ha2.
  destruct (Z.log2_spec (Z.pos d) eq_refl) as [Hb1 Hb2]. fold b in Hb1, Hb2.
  clearbody a b. replace (Z.succ a) with (a + 1)%Z in Ha2 by lia.
  replace (Z.succ b) with (b + 1)%Z in Hb2 by lia.
  assert (Hlow : pow2 (a - b - 1) <= n # d).
  { replace (a - b - 1)%Z with (a - (b + 1))%Z by lia.
    rewrite pow2_minus. apply Qle_shift_div_r; [apply pow2_pos |].
    rewrite (pow2_inject a Ha), (pow2_inject (b + 1)) by lia.
    unfold Qle, Qmult, inject_Z. cbn [Qnum Qden].
    rewrite Z.mul_1_r. rewrite Pos.mul_1_r.
    apply Z.le_trans with (n * Z.pos d)%Z.
    - apply Z.mul_le_mono_nonneg_r; lia.
    - apply Z.mul_le_mono_nonneg_l; lia. }
  assert (Hhigh : n # d < pow2 (a - b + 1)).
  { replace (a - b + 1)%Z with (a + 1 - b)%Z by lia.
    rewrite pow2_minus. apply Qlt_shift_div_l; [apply pow2_pos |].
    rewrite (pow2_inject b Hb), (pow2_inject (a + 1)) by lia.
    unfold Qlt, Qmult, inject_Z. cbn [Qnum Qden].
    rewrite Z.mul_1_r, Pos.mul_1_r.
    apply Z.le_lt_trans with (n * Z.pos d)%Z.
    - apply Z.mul_le_mono_nonneg_l; lia.
    - apply Z.mul_lt_mono_pos_r; lia. }
  destruct (Qle_bool (pow2 (a - b)) (n # d)) eqn:E.
  - apply Qle_bool_iff in E. split; assumption.
  - split; [exact Hlow |].
    replace (a - b - 1 + 1)%Z with (a - b)%Z by lia.
    apply Qnot_le_lt. intros H. apply Qle_bool_iff in H. congruence.
Qed.

Lemma floor_log2_unique (q : Q) (E : Z) :
  pow2 E <= q -> q < pow2 (E + 1) -> floor_log2 q = E.
Proof.
  intros H1 H2.
  assert (Hq : 0 < q) by (eapply Qlt_le_trans; [apply pow2_pos | exact H1]).
  destruct (floor_log2_spec q Hq) as [H3 H4].
  assert (floor_log2 q < E + 1)%Z.
  { apply pow2_lt_inv. eapply Qle_lt_trans; eassumption. }
  assert (E < floor_log2 q + 1)%Z.
  { apply pow2_lt_inv. eapply Qle_lt_trans; eassumption. }
  lia.
Qed.

Lemma floor_log2_comp (p q : Q) : 0 < p -> p == q -> floor_log2 p = floor_log2 q.
Proof.
  intros Hp E. destruct (floor_log2_spec p Hp) as [H1 H2].
  symmetry. apply floor_log2_unique; rewrite <- E; assumption.
Qed.

Lemma floor_log2_lt (q : Q) (k : Z) : 0 < q -> q < pow2 k -> (floor_log2 q < k)%Z.
Proof.
  intros Hq H. destruct (floor_log2_spec q Hq) as [H1 _].
  apply pow2_lt_inv. eapply Qle_lt_trans; eassumption.
Qed.

(** *** Rounding to the nearest integer *)

Lemma round_half_even_comp (p q : Q) :
  p == q -> round_half_even p = round_half_even q.
Proof.
  intros E. unfold round_half_even.
  rewrite (Qfloor_comp p q E).
  assert (E' : p - inject_Z (Qfloor q) == q - inject_Z (Qfloor q))
    by (rewrite E; reflexivity).
  rewrite (Qcompare_comp _ _ E' (1 # 2) (1 # 2) (Qeq_refl _)). reflexivity.
Qed.

Lemma round_half_even_inject (k : Z) : round_half_even (inject_Z k) = k.
Proof.
  unfold round_half_even. rewrite Qfloor_Z.
  assert (E : inject_Z k - inject_Z k == 0) by ring.
  rewrite (Qcompare_comp _ _ E (1 # 2) (1 # 2) (Qeq_refl _)). reflexivity.
Qed.

Lemma round_half_even_bounds (r : Q) :
  (Qfloor r <= round_half_even r <= Qfloor r + 1)%Z.
Proof.
  unfold round_half_even.
  destruct (r - inject_Z (Qfloor r) ?= 1 # 2)%Q; [destruct (Z.even _) | |]; lia.
Qed.

Lemma round_half_even_le (r : Q) (k : Z) :
  r <= inject_Z k -> (round_half_even r <= k)%Z.
Proof.
  intros H.
  destruct (Z.eq_dec (Qfloor r) k) as [E | NE].
  - assert (Er : r == inject_Z k).
    { apply Qle_antisym; [exact H |]. rewrite <- E. apply Qfloor_le. }
    rewrite (round_half_even_comp _ _ Er), round_half_even_inject. lia.
  - assert (Qfloor r <= k)%Z.
    { rewrite <- (Qfloor_Z k). apply Qfloor_resp_le, H. }
    pose proof (round_half_even_bounds r). lia.
Qed.

Lemma round_half_even_ge (r : Q) (k : Z) :
  inject_Z k <= r -> (k <= round_half_even r)%Z.
Proof.
  intros H.
  assert (k <= Qfloor r)%Z.
  { rewrite <- (Qfloor_Z k). apply Qfloor_resp_le, H. }
  pose proof (round_half_even_bounds r). lia.
Qed.

(** *** Rounding to a binary format *)

Section Format.

Variables prec emin : Z.
Hypothesis prec_pos : (0 < prec)%Z.

Lemma round_pos_comp (p q : Q) :
  0 < p -> p == q -> round_pos prec emin p == round_pos prec emin q.
Proof.
  intros Hp E. unfold round_pos, ulp_exp.
  rewrite (floor_log2_comp p q Hp E).
  set (e := Z.max _ _).
  assert (E' : p / pow2 e == q / pow2 e) by (rewrite E; reflexivity).
  rewrite (round_half_even_comp _ _ E'). reflexivity.
Qed.

Lemma round_float_comp (p q : Q) :
  p == q -> round_float prec emin p == round_float prec emin q.
Proof.
  intros E. unfold round_float.
  rewrite (Qcompare_comp p q E 0 0 (Qeq_refl _)).
  destruct (Qcompare_spec q 0) as [H | H | H].
  - reflexivity.
  - apply Qopp_comp, round_pos_comp.
    + rewrite E. apply (Qopp_lt_compat q 0) in H. exact H.
    + rewrite E. reflexivity.
  - apply round_pos_comp; [rewrite E; exact H | exact E].
Qed.

(** The unit in the last place of [q] is at most the exponent of any
    representable number above [q]. *)
Lemma ulp_exp_le (q : Q) (m e : Z) :
  0 < q -> q <= inject_Z m * pow2 e -> (m < 2 ^ prec)%Z -> (emin <= e)%Z ->
  (ulp_exp prec emin q <= e)%Z.
Proof.
  intros Hq Hle Hm He. unfold ulp_exp.
  assert (q < pow2 (prec + e)).
  { eapply Qle_lt_trans; [exact Hle |].
    rewrite pow2_plus. apply Qmult_lt_compat_r; [apply pow2_pos |].
    rewrite (pow2_inject prec) by lia. rewrite <- Zlt_Qlt. exact Hm. }
  pose proof (floor_log2_lt q _ Hq H). lia.
Qed.

Lemma scaled_integer (m e u : Z) :
  (u <= e)%Z -> inject_Z m * pow2 e / pow2 u == inject_Z (m * 2 ^ (e - u)).
Proof.
  intros H. rewrite inject_Z_mult, <- (pow2_inject (e - u)) by lia.
  rewrite pow2_minus. field. apply pow2_neq_0.
Qed.

Lemma round_pos_exact (q : Q) (m e : Z) :
  0 < q -> q == inject_Z m * pow2 e -> (m < 2 ^ prec)%Z -> (emin <= e)%Z ->
  round_pos prec emin q == q.
Proof.
  intros Hq E Hm He.
  assert (Hu : (ulp_exp prec emin q <= e)%Z).
  { apply (ulp_exp_le q m e); try assumption. rewrite E. apply Qle_refl. }
  unfold round_pos. set (u := ulp_exp prec emin q) in *.
  assert (Es : q / pow2 u == inject_Z (m * 2 ^ (e - u))).
  { rewrite E. apply scaled_integer, Hu. }
  rewrite (round_half_even_comp _ _ Es), round_half_even_inject.
  rewrite <- Es. field. apply pow2_neq_0.
Qed.

Lemma round_pos_le (q : Q) (m e : Z) :
  0 < q -> q <= inject_Z m * pow2 e -> (m < 2 ^ prec)%Z -> (emin <= e)%Z ->
  round_pos prec emin q <= inject_Z m * pow2 e.
Proof.
  intros Hq Hle Hm He.
  pose proof (ulp_exp_le q m e Hq Hle Hm He) as Hu.
  unfold round_pos. set (u := ulp_exp prec emin q) in *.
  assert (Es : inject_Z m * pow2 e / pow2 u == inject_Z (m * 2 ^ (e - u)))
    by (apply scaled_integer, Hu).
  assert (Hr : (round_half_even (q / pow2 u) <= m * 2 ^ (e - u))%Z).
  { apply round_half_even_le. rewrite <- Es.
    apply Qmult_le_compat_r; [exact Hle |].
    apply Qlt_le_weak, Qinv_lt_0_compat, pow2_pos. }
  rewrite Zle_Qle in Hr.
  apply Qle_trans with (inject_Z (m * 2 ^ (e - u)) * pow2 u).
  - apply Qmult_le_compat_r; [exact Hr | apply Qlt_le_weak, pow2_pos].
  - rewrite <- Es. apply Qle_lteq. right. field. apply pow2_neq_0.
Qed.

Lemma round_pos_nonneg (q : Q) : 0 <= q -> 0 <= round_pos prec emin q.
Proof.
  intros Hq. unfold round_pos.
  apply Qmult_le_0_compat; [| apply Qlt_le_weak, pow2_pos].
  change 0 with (inject_Z 0). rewrite <- Zle_Qle.
  apply round_half_even_ge. change (inject_Z 0) with 0.
  apply Qmult_le_0_compat; [exact Hq |].
  apply Qlt_le_weak, Qinv_lt_0_compat, pow2_pos.
Qed.

Lemma floor_log2_ulp_exp (q : Q) :
  (floor_log2 q + 1 - ulp_exp prec emin q <= prec)%Z.
Proof. unfold ulp_exp. lia. Qed.

(** The result of rounding is a number of the format. *)
Lemma round_pos_representable (q : Q) :
  0 < q -> representable prec emin (round_pos prec emin q).
Proof.
  intros Hq. unfold round_pos. set (u := ulp_exp prec emin q).
  assert (Hu : (emin <= u)%Z) by (unfold u, ulp_exp; lia).
  set (r := q / pow2 u).
  assert (Hr0 : 0 <= r).
  { apply Qle_shift_div_l; [apply pow2_pos |]. rewrite Qmult_0_l.
    apply Qlt_le_weak, Hq. }
  assert (Hr1 : r <= inject_Z (2 ^ prec)).
  { apply Qle_shift_div_r; [apply pow2_pos |].
    rewrite <- (pow2_inject prec) by lia. rewrite <- pow2_plus.
    destruct (floor_log2_spec q Hq) as [_ Hlt].
    apply Qlt_le_weak. eapply Qlt_le_trans; [exact Hlt |].
    apply pow2_le. pose proof (floor_log2_ulp_exp q). fold u in H. lia. }
  pose proof (round_half_even_le r _ Hr1) as Hm1.
  assert (Hm0 : (0 <= round_half_even r)%Z)
    by (apply round_half_even_ge; exact Hr0).
  destruct (Z.eq_dec (round_half_even r) (2 ^ prec)) as [E | NE].
  - exists (2 ^ (prec - 1))%Z, (u + 1)%Z. split; [| split; [lia |]].
    + rewrite Z.abs_eq by (apply Z.pow_nonneg; lia).
      apply Z.pow_lt_mono_r; lia.
    + rewrite E, <- !pow2_inject by lia. rewrite <- !pow2_plus.
      replace (prec - 1 + (u + 1))%Z with (prec + u)%Z by lia. reflexivity.
  - exists (round_half_even r), u. split; [| split; [exact Hu | reflexivity]].
    rewrite Z.abs_eq by exact Hm0. lia.
Qed.

Lemma representable_opp (q : Q) :
  representable prec emin q -> representable prec emin (- q).
Proof.
  intros (m & e & Hm & He & E). exists (- m)%Z, e.
  split; [now rewrite Z.abs_opp | split; [exact He |]].
  rewrite E, inject_Z_opp. ring.
Qed.

Lemma representable_0 : representable prec emin 0.
Proof.
  exists 0%Z, emin. split; [| split; [lia |]].
  - simpl. apply Z.pow_pos_nonneg; lia.
  - ring.
Qed.

Lemma round_float_representable (q : Q) :
  representable prec emin (round_float prec emin q).
Proof.
  unfold round_float. destruct (Qcompare_spec q 0) as [H | H | H].
  - apply representable_0.
  - apply representable_opp, round_pos_representable.
    apply (Qopp_lt_compat q 0), H.
  - apply round_pos_representable, H.
Qed.

(** Numbers of the format are left as they are. *)
Lemma round_float_exact (q : Q) :
  representable prec emin q -> round_float prec emin q == q.
Proof.
  intros (m & e & Hm & He & E). unfold round_float.
  destruct (Qcompare_spec q 0) as [H | H | H].
  - symmetry. exact H.
  - assert (Hq : 0 < - q) by (apply (Qopp_lt_compat q 0), H).
    rewrite (round_pos_exact (- q) (- m) e Hq); [ring | | lia | exact He].
    rewrite E, inject_Z_opp. ring.
  - apply (round_pos_exact q m e H E); [lia | exact He].
Qed.

(** Rounding does not cross a number of the format. *)
Lemma round_float_le (q b : Q) :
  representable prec emin b -> 0 <= b -> q <= b -> round_float prec emin q <= b.
Proof.
  intros (m & e & Hm & He & E) Hb Hle. unfold round_float.
  destruct (Qcompare_spec q 0) as [H | H | H].
  - exact Hb.
  - apply Qle_trans with 0; [| exact Hb].
    assert (H0 : 0 <= round_pos prec emin (- q)).
    { apply round_pos_nonneg. apply Qlt_le_weak, (Qopp_lt_compat q 0), H. }
    apply (Qopp_le_compat 0) in H0. exact H0.
  - rewrite E. apply round_pos_le;
      [exact H | rewrite <- E; exact Hle | lia | exact He].
Qed.

Lemma round_float_nonneg (q : Q) : 0 <= q -> 0 <= round_float prec emin q.
Proof.
  intros Hq. unfold round_float.
  destruct (Qcompare_spec q 0) as [H | H | H].
  - apply Qle_refl.
  - exfalso. exact (Qlt_not_le _ _ H Hq).
  - apply round_pos_nonneg, Hq.
Qed.

(** *** Monotonicity *)






(** *** The rounding error *)

Lemma round_half_even_near (r : Q) :
  inject_Z (round_half_even r) - r <= 1 # 2 /\
  r - inject_Z (round_half_even r) <= 1 # 2.
Proof.
  pose proof (Qfloor_le r) as Hlo. pose proof (Qlt_floor r) as Hhi.
  rewrite inject_Z_plus in Hhi. change (inject_Z 1) with 1 in Hhi.
  unfold round_half_even.
  destruct (Qcompare_spec (r - inject_Z (Qfloor r)) (1 # 2)) as [H | H | H].
  - destruct (Z.even (Qfloor r)).
    + split; lra.
    + rewrite inject_Z_plus. change (inject_Z 1) with 1. split; lra.
  - split; lra.
  - rewrite inject_Z_plus. change (inject_Z 1) with 1. split; lra.
Qed.

Lemma round_pos_near (q : Q) :
  round_pos prec emin q - q <= pow2 (ulp_exp prec emin q) * (1 # 2) /\
  q - round_pos prec emin q <= pow2 (ulp_exp prec emin q) * (1 # 2).
Proof.
  unfold round_pos. set (u := ulp_exp prec emin q).
  pose proof (pow2_pos u) as Hu.
  destruct (round_half_even_near (q / pow2 u)) as [H1 H2].
  set (m := inject_Z (round_half_even (q / pow2 u))) in *.
  assert (E : q == q / pow2 u * pow2 u) by (field; apply pow2_neq_0).
  split.
  - setoid_replace (m * pow2 u - q) with ((m - q / pow2 u) * pow2 u)
      by (rewrite E at 1; ring).
    rewrite (Qmult_comm (pow2 u)).
    apply Qmult_le_compat_r; [exact H1 | apply Qlt_le_weak, Hu].
  - setoid_replace (q - m * pow2 u) with ((q / pow2 u - m) * pow2 u)
      by (rewrite E at 1; ring).
    rewrite (Qmult_comm (pow2 u)).
    apply Qmult_le_compat_r; [exact H2 | apply Qlt_le_weak, Hu].
Qed.

(** In the range of the normal numbers the unit in the last place is
    proportional to the number rounded. *)
Lemma ulp_exp_normal (q : Q) :
  pow2 (emin + prec - 1) <= q ->
  pow2 (ulp_exp prec emin q) <= q * pow2 (1 - prec).
Proof.
  intros Hq.
  assert (Hpos : 0 < q) by (eapply Qlt_le_trans; [apply pow2_pos | exact Hq]).
  destruct (floor_log2_spec q Hpos) as [Hlo Hhi].
  assert (Hfl : (emin + prec - 1 < floor_log2 q + 1)%Z).
  { apply pow2_lt_inv. eapply Qle_lt_trans; eassumption. }
  unfold ulp_exp. rewrite Z.max_l by lia.
  replace (floor_log2 q - (prec - 1))%Z with (floor_log2 q + (1 - prec))%Z by lia.
  rewrite pow2_plus.
  apply Qmult_le_compat_r; [exact Hlo | apply Qlt_le_weak, pow2_pos].
Qed.

Lemma round_float_relative (q : Q) :
  pow2 (emin + prec - 1) <= q ->
  q * (1 - pow2 (- prec)) <= round_float prec emin q /\
  round_float prec emin q <= q * (1 + pow2 (- prec)).
Proof.
  intros Hq.
  assert (Hpos : 0 < q) by (eapply Qlt_le_trans; [apply pow2_pos | exact Hq]).
  unfold round_float. destruct (Qcompare_spec q 0) as [H | H | H].
  - rewrite H in Hpos. discriminate Hpos.
  - exfalso. exact (Qlt_irrefl _ (Qlt_trans _ _ _ H Hpos)).
  - destruct (round_pos_near q) as [H1 H2].
    pose proof (ulp_exp_normal q Hq) as Hu.
    assert (Hhalf : pow2 (ulp_exp prec emin q) * (1 # 2) <= q * pow2 (- prec)).
    { replace (- prec)%Z with ((1 - prec) + (- 1))%Z by lia.
      rewrite pow2_plus. change (pow2 (-1)) with (1 # 2).
      rewrite Qmult_assoc.
      apply Qmult_le_compat_r; [exact Hu | discriminate]. }
    split; lra.
Qed.

End Format.

(** *** binary64 *)

#[global] Instance round64_Proper : Proper (Qeq ==> Qeq) round64.
Proof. intros p q E. apply round_float_comp, E. Qed.

#[global] Instance fdiv_Proper : Proper (Qeq ==> Qeq ==> Qeq) fdiv.
Proof. intros p q E p' q' E'. unfold fdiv. now rewrite E, E'. Qed.

#[global] Instance fmul_Proper : Proper (Qeq ==> Qeq ==> Qeq) fmul.
Proof. intros p q E p' q' E'. unfold fmul. now rewrite E, E'. Qed.

Lemma round64_exact (q : Q) : representable 53 (-1074) q -> round64 q == q.
Proof. apply round_float_exact. reflexivity. Qed.

Lemma round64_le (q b : Q) :
  representable 53 (-1074) b -> 0 <= b -> q <= b -> round64 q <= b.
Proof. apply round_float_le. reflexivity. Qed.

Lemma round64_nonneg (q : Q) : 0 <= q -> 0 <= round64 q.
Proof. apply round_float_nonneg. Qed.

Lemma round64_representable (q : Q) : representable 53 (-1074) (round64 q).
Proof. apply round_float_representable. reflexivity. Qed.

Lemma representable_int (z : Z) :
  (Z.abs z < 2 ^ 53)%Z -> representable 53 (-1074) (inject_Z z).
Proof.
  intros Hz. exists z, 0%Z. split; [exact Hz | split; [lia |]].
  unfold pow2. simpl. ring.
Qed.

Lemma to_float_exact (z : Z) :
  (Z.abs z < 2 ^ 53)%Z -> to_float z == inject_Z z.
Proof. intros Hz. apply round64_exact, representable_int, Hz. Qed.

(** Dividing a float by 128 is exact whenever the quotient is in the range
    of the normal numbers; so is dividing an integer below [2^53]. *)
Lemma fdiv_128_int (z : Z) :
  (Z.abs z < 2 ^ 53)%Z -> fdiv (inject_Z z) 128 == inject_Z z / 128.
Proof.
  intros Hz. apply round64_exact. exists z, (-7)%Z.
  split; [exact Hz | split; [lia |]]. unfold pow2. simpl. field.
Qed.

(** One rounding changes a number of the normal range by a factor between
    [1 - 2^-53] and [1 + 2^-53]. *)
Lemma round64_relative (q : Q) :
  pow2 (-1022) <= q ->
  q * (1 - pow2 (-53)) <= round64 q /\ round64 q <= q * (1 + pow2 (-53)).
Proof. apply (round_float_relative 53 (-1074)). Qed.


Lemma round64_0 (q : Q) : q == 0 -> round64 q == 0.
Proof. intros E. rewrite E. reflexivity. Qed.

(** *** Agreement with the hardware

    [round64] is checked against the floating-point unit on the operations of
    the notebook: every quotient [image / 255.0] can produce, quotients by
    128 in the normal and in the subnormal range (where ties and gradual
    underflow show), their products with 128, and sums. *)

Example fdiv_255_as_hardware :
  forallb (fun z => same_value (fdiv (inject_Z z) 255)
                      (PrimFloat.div (hardware_float z 0)
                                     (hardware_float 255 0)))
          (map Z.of_nat (seq 0 256)) = true.
Proof. vm_compute. reflexivity. Qed.

Example fdiv_128_as_hardware :
  forallb (fun m => same_value (fdiv (inject_Z m * pow2 (-3)) 128)
                      (PrimFloat.div (hardware_float m (-3))
                                     (hardware_float 128 0)))
          (map Z.of_nat (seq 0 65)) = true.
Proof. vm_compute. reflexivity. Qed.

Example fdiv_128_subnormal_as_hardware :
  forallb (fun m => same_value (fdiv (inject_Z m * pow2 (-1074)) 128)
                      (PrimFloat.div (hardware_float m (-1074))
                                     (hardware_float 128 0)))
          (map Z.of_nat (seq 0 65)) = true.
Proof. vm_compute. reflexivity. Qed.

Example fdiv_3_as_hardware :
  forallb (fun m => same_value (fdiv (inject_Z m * pow2 (-1074)) 3)
                      (PrimFloat.div (hardware_float m (-1074))
                                     (hardware_float 3 0)))
          (map Z.of_nat (seq 0 33)) = true.
Proof. vm_compute. reflexivity. Qed.

Example fmul_128_as_hardware :
  forallb (fun z => same_value (fmul (fdiv (inject_Z z) 255) (to_float 128))
                      (PrimFloat.mul
                         (PrimFloat.div (hardware_float z 0)
                                        (hardware_float 255 0))
                         (hardware_float 128 0)))
          (map Z.of_nat (seq 0 64)) = true.
Proof. vm_compute. reflexivity. Qed.

Example float_sum_as_hardware :
  same_value
    (float_sum [fdiv 1024 5; fdiv 256 5; fdiv 1024 5; fdiv 1 3])
    (PrimFloat.add
       (PrimFloat.add
          (PrimFloat.add
             (PrimFloat.add (hardware_float 0 0)
                (PrimFloat.div (hardware_float 1024 0) (hardware_float 5 0)))
             (PrimFloat.div (hardware_float 256 0) (hardware_float 5 0)))
          (PrimFloat.div (hardware_float 1024 0) (hardware_float 5 0)))
       (PrimFloat.div (hardware_float 1 0) (hardware_float 3 0)))
  = true.
Proof. vm_compute. reflexivity. Qed.

(** *** The cast to int64 *)

Lemma Qtrunc_comp (p q : Q) : p == q -> Qtrunc p = Qtrunc q.
Proof.
  unfold Qeq, Qtrunc. destruct p as [n1 d1], q as [n2 d2]. simpl. intros H.
  rewrite <- (Z.quot_mul_cancel_r n1 (Zpos d1) (Zpos d2)) by lia.
  rewrite H.
  rewrite (Z.mul_comm (Zpos d1) (Zpos d2)).
  apply Z.quot_mul_cancel_r; lia.
Qed.

Lemma astype_int_Qeq (p q : Q) : p == q -> astype_int p = astype_int q.
Proof. intros H. unfold astype_int. now rewrite (Qtrunc_comp p q H). Qed.

#[global] Instance astype_int_Proper : Proper (Qeq ==> eq) astype_int.
Proof. intros p q E. apply astype_int_Qeq, E. Qed.

Lemma astype_int_inject_Z (z : Z) :
  (int64_min <= z <= int64_max)%Z -> astype_int (inject_Z z) = z.
Proof.
  intros Hz. unfold astype_int, Qtrunc. simpl. rewrite Z.quot_1_r.
  destruct (Z.leb_spec int64_min z); [| lia].
  destruct (Z.leb_spec z int64_max); [reflexivity | lia].
Qed.

Lemma wrap64_small (z : Z) :
  (int64_min <= z <= int64_max)%Z -> wrap64 z = z.
Proof.
  unfold wrap64, int64_min, int64_max. intros Hz.
  rewrite Z.mod_small; lia.
Qed.

(** ** Normalization and the unit interval *)

Lemma representable_1 : representable 53 (-1074) 1.
Proof. apply (representable_int 1). reflexivity. Qed.

Lemma in_unit_normalized (q : Q) : in_frame q -> in_unit (fdiv q 128).
Proof.
  intros [H0 H1]. unfold in_unit, fdiv. split.
  - apply round64_nonneg. apply Qle_shift_div_l; [reflexivity |].
    now rewrite Qmult_0_l.
  - apply round64_le; [exact representable_1 | discriminate |].
    apply Qle_shift_div_r; [reflexivity |]. now rewrite Qmult_1_l.
Qed.

Lemma box_in_unit_normalized (a : Annotation) :
  ann_in_frame a -> box_in_unit (normalized_box a).
Proof.
  intros (H1 & H2 & H3 & H4). unfold box_in_unit, normalized_box. simpl.
  repeat split; now apply in_unit_normalized.
Qed.

(** ** Denormalization *)

Lemma to_float_image_size : to_float image_size == 128.
Proof. apply (to_float_exact 128). reflexivity. Qed.

(** A coordinate that is an exact integer comes back from normalization and
    denormalization unchanged. *)
Lemma denormalize_normalized_coordinate (q : Q) (z : Z) :
  (Z.abs z < 2 ^ 53)%Z -> q == inject_Z z ->
  astype_int (fmul (fdiv q 128) (to_float image_size)) = z.
Proof.
  intros Hz E.
  assert (E' : fmul (fdiv q 128) (to_float image_size) == inject_Z z).
  { rewrite E, (fdiv_128_int z Hz), to_float_image_size. unfold fmul.
    rewrite <- (round64_exact (inject_Z z)) at 2
      by (apply representable_int, Hz).
    apply round64_Proper. field. }
  rewrite (astype_int_Qeq _ _ E'). apply astype_int_inject_Z.
  unfold int64_min, int64_max. lia.
Qed.

Lemma exact_integer_recovered (q : Q) :
  exact_integer q ->
  inject_Z (astype_int (fmul (fdiv q 128) (to_float image_size))) == q.
Proof.
  intros (z & Hz & E).
  rewrite (denormalize_normalized_coordinate q z Hz E). now symmetry.
Qed.

Lemma denormalize_normalized_recovers (a : Annotation) (b : Box Z) :
  ann_exact_integers a ->
  denormalize_boxes [normalized_box a] image_size = [b] ->
  recovers a b.
Proof.
  intros (H1 & H2 & H3 & H4) [= <-]. unfold recovers. cbn [bx1 by1 bx2 by2 normalized_box].
  repeat split; now apply exact_integer_recovered.
Qed.

Lemma denormalize_normalized_all (anns : list Annotation) :
  Forall ann_exact_integers anns ->
  Forall2 recovers anns (denormalize_boxes (map normalized_box anns) image_size).
Proof.
  induction 1 as [| a l Ha _ IH]; simpl; constructor; [| exact IH].
  apply denormalize_normalized_recovers; [exact Ha | reflexivity].
Qed.

(** ** Comparisons and classes *)

Lemma Qgtb_spec x y : Qgtb x y = true <-> (y < x)%Q.
Proof.
  unfold Qgtb. rewrite negb_true_iff. split.
  - intros H. apply Qnot_le_lt. intros Hle.
    apply Qle_bool_iff in Hle. congruence.
  - intros H. destruct (Qle_bool x y) eqn:E; [| reflexivity].
    apply Qle_bool_iff in E. exfalso. now apply (Qlt_not_le y x).
Qed.

Lemma Qgtb_false x y : Qgtb x y = false <-> (x <= y)%Q.
Proof.
  unfold Qgtb. rewrite negb_false_iff. apply Qle_bool_iff.
Qed.

Lemma class_id_spec lbl :
  (class_id lbl = 1%Z <-> lbl = "Fault") /\
  (class_id lbl = 0%Z <-> lbl <> "Fault").
Proof.
  unfold class_id. destruct (String.eqb_spec lbl "Fault") as [-> | Hne].
  - split; split; intros H; try reflexivity; try discriminate; congruence.
  - split; split; intros H; try reflexivity; try discriminate; congruence.
Qed.

(** ** Normalized coordinates (C1) *)

(** C1, as stated, fails: a record whose x1 is 200 is normalized to 200/128,
    which is above 1; nothing in [load_and_preprocess_image] clamps it. *)
Lemma normalized_box_outside_unit :
  exists tr img boxes classes,
    load_and_preprocess_image good_env "../data/images/a.png"
      [mkAnnotation (inject_Z 200) (inject_Z 16) (inject_Z 96) (inject_Z 64)
                    "Fault"]
    = (tr, Ok (img, boxes, classes)) /\
    ~ Forall box_in_unit boxes.
Proof.
  eexists _, _, _, _. split.
  - apply (load_and_preprocess_image_readable good_env _ _
             [[(x00, x80, xff)]]). reflexivity.
  - intros H. inversion H as [| b l Hb _]; subst.
    destruct Hb as [[_ Hle] _]. revert Hle.
    vm_compute. intros Hle. now apply Hle.
Qed.

(** C1 (amended): the normalized boxes [load_and_preprocess_image] returns
    all lie in [0,1] whenever every pixel coordinate of every record lies in
    [0,128]. *)
Theorem normalized_boxes_in_unit env path anns tr img boxes classes :
  load_and_preprocess_image env path anns = (tr, Ok (img, boxes, classes)) ->
  Forall ann_in_frame anns ->
  Forall box_in_unit boxes.
Proof.
  intros H Hframe. apply load_and_preprocess_image_ok in H.
  destruct H as (raw & _ & _ & _ & -> & _).
  rewrite Forall_map. revert Hframe. apply Forall_impl.
  exact box_in_unit_normalized.
Qed.

Lemma normalized_boxes_in_unit_witness :
  exists tr img boxes classes,
    load_and_preprocess_image good_env "../data/images/a.png"
      [sample_ann "Fault"]
    = (tr, Ok (img, boxes, classes)) /\
    Forall ann_in_frame [sample_ann "Fault"] /\
    Forall box_in_unit boxes.
Proof.
  eexists _, _, _, _.
  pose proof (load_and_preprocess_image_readable good_env
                "../data/images/a.png"
                [sample_ann "Fault"]
                [[(x00, x80, xff)]] eq_refl) as E.
  assert (Hframe : Forall ann_in_frame [sample_ann "Fault"]).
  { constructor; [| constructor]. repeat split; discriminate. }
  split; [exact E | split; [exact Hframe |]].
  exact (normalized_boxes_in_unit _ _ _ _ _ _ _ E Hframe).
Defined.

(** Only this direction holds: a coordinate just below zero, outside of the
    frame, is normalized to zero. *)
Example normalized_in_unit_outside_frame :
  ~ in_frame (- pow2 (-1074)) /\ in_unit (fdiv (- pow2 (-1074)) 128).
Proof.
  split.
  - intros [H _]. revert H. vm_compute. intros H. now apply H.
  - split; vm_compute; discriminate.
Qed.

(** ** Denormalization after normalization (C2) *)

(** C2, as stated, fails: a record whose x1 is 1/2 is normalized to 1/256,
    denormalized to 1/2 and cast to the integer 0. *)
Lemma denormalize_not_inverse :
  exists tr img boxes classes,
    load_and_preprocess_image good_env "../data/images/a.png"
      [mkAnnotation (1 # 2) (inject_Z 16) (inject_Z 96) (inject_Z 64) "Fault"]
    = (tr, Ok (img, boxes, classes)) /\
    denormalize_boxes boxes 128 = [mkBox 0 16 96 64]%Z /\
    ~ Forall2 recovers
        [mkAnnotation (1 # 2) (inject_Z 16) (inject_Z 96) (inject_Z 64) "Fault"]
        (denormalize_boxes boxes 128).
Proof.
  eexists _, _, _, _. split; [| split].
  - apply (load_and_preprocess_image_readable good_env _ _
             [[(x00, x80, xff)]]). reflexivity.
  - vm_compute. reflexivity.
  - intros H. inversion H as [| a b la lb Hab _]; subst.
    destruct Hab as [Hx _]. revert Hx. vm_compute. discriminate.
Qed.

(** C2 (amended): denormalizing the normalized boxes of
    [load_and_preprocess_image] recovers the original pixel coordinates of
    every record whose coordinates are integers of magnitude below [2^53]. *)
Theorem denormalize_normalize_roundtrip env path anns tr img boxes classes :
  load_and_preprocess_image env path anns = (tr, Ok (img, boxes, classes)) ->
  Forall ann_exact_integers anns ->
  Forall2 recovers anns (denormalize_boxes boxes image_size).
Proof.
  intros H Hint. apply load_and_preprocess_image_ok in H.
  destruct H as (raw & _ & _ & _ & -> & _).
  apply denormalize_normalized_all, Hint.
Qed.

Lemma denormalize_normalize_roundtrip_witness :
  exists tr img boxes classes,
    load_and_preprocess_image good_env "../data/images/a.png"
      [sample_ann "Fault"]
    = (tr, Ok (img, boxes, classes)) /\
    Forall ann_exact_integers [sample_ann "Fault"] /\
    Forall2 recovers [sample_ann "Fault"] (denormalize_boxes boxes image_size).
Proof.
  eexists _, _, _, _.
  pose proof (load_and_preprocess_image_readable good_env
                "../data/images/a.png"
                [sample_ann "Fault"]
                [[(x00, x80, xff)]] eq_refl) as E.
  assert (Hint : Forall ann_exact_integers [sample_ann "Fault"]).
  { constructor; [| constructor].
    repeat split; eexists; (split; [| reflexivity]); reflexivity. }
  split; [exact E | split; [exact Hint |]].
  exact (denormalize_normalize_roundtrip _ _ _ _ _ _ _ E Hint).
Defined.

(** The bound is needed: [2^53 + 1] comes back as [2^53], and [2^64], whose
    round trip leaves the range of int64, as the least int64. *)
Example denormalize_large_integers :
  astype_int (fmul (fdiv (inject_Z (2 ^ 53 + 1)) 128) (to_float image_size))
  = (2 ^ 53)%Z /\
  astype_int (fmul (fdiv (inject_Z (2 ^ 64)) 128) (to_float image_size))
  = int64_min.
Proof. split; vm_compute; reflexivity. Qed.

(** ** Ground-truth class (C9) *)

(** C9: the class ID of a record is 1 exactly when its label is the string
    'Fault'; every other label, the fault-category names included, gives
    class 0. *)
Theorem class_is_one_iff_label_fault env path anns tr img boxes classes :
  load_and_preprocess_image env path anns = (tr, Ok (img, boxes, classes)) ->
  classes = map (fun a => class_id (label a)) anns /\
  (forall a, class_id (label a) = 1%Z <-> label a = "Fault") /\
  (forall a, class_id (label a) = 0%Z <-> label a <> "Fault") /\
  class_id "Void" = 0%Z /\
  class_id "Uneven Finish Line" = 0%Z /\
  class_id "fault" = 0%Z.
Proof.
  intros H. apply load_and_preprocess_image_ok in H.
  destruct H as (raw & _ & _ & _ & _ & ->).
  split; [reflexivity |].
  split; [intros a; apply class_id_spec |].
  split; [intros a; apply class_id_spec |].
  repeat split.
Qed.

Lemma class_is_one_iff_label_fault_witness :
  exists tr img boxes classes,
    load_and_preprocess_image good_env "../data/images/a.png"
      [sample_ann "Fault"; sample_ann_void]
    = (tr, Ok (img, boxes, classes)) /\
    classes = [1; 0]%Z.
Proof.
  eexists _, _, _, _.
  pose proof (load_and_preprocess_image_readable good_env
                "../data/images/a.png"
                [sample_ann "Fault"; sample_ann_void]
                [[(x00, x80, xff)]] eq_refl) as E.
  split; [exact E |].
  exact (proj1 (class_is_one_iff_label_fault _ _ _ _ _ _ _ E)).
Defined.

(** ** The dataset assembler *)

Lemma dataset_loop_ok env dir items : forall images boxes classes,
  Forall (fun kv => cv2_imread env (os_path_join dir (fst kv)) <> None) items ->
  dataset_loop env items dir images boxes classes =
  (map (fun kv => EvImread (os_path_join dir (fst kv))) items,
   Ok (images ++ map (fun kv => preprocessed_image env (os_path_join dir (fst kv))) items,
       boxes ++ map (fun kv => map normalized_box (snd kv)) items,
       classes ++ map (fun kv => map (fun a => class_id (label a)) (snd kv)) items)).
Proof.
  induction items as [| [name anns] rest IH]; intros images boxes classes Hall.
  - simpl. now rewrite !app_nil_r.
  - inversion Hall as [| kv l Hkv Hrest]; subst. simpl in Hkv.
    destruct (cv2_imread env (os_path_join dir name)) as [raw |] eqn:Hraw;
      [| congruence].
    cbn [dataset_loop].
    rewrite (bind_ok _ _ _ _ (load_and_preprocess_image_readable _ _ anns _ Hraw)).
    cbn [fst snd]. rewrite (IH _ _ _ Hrest). cbn [fst snd map app].
    unfold preprocessed_image at 2. rewrite Hraw.
    now rewrite <- !app_assoc.
Qed.

Lemma dataset_loop_unreadable env dir done name anns rest :
  forall images boxes classes,
  Forall (fun kv => cv2_imread env (os_path_join dir (fst kv)) <> None) done ->
  cv2_imread env (os_path_join dir name) = None ->
  dataset_loop env (done ++ (name, anns) :: rest) dir images boxes classes =
  (map (fun kv => EvImread (os_path_join dir (fst kv))) (done ++ [(name, anns)]),
   Err CvError).
Proof.
  induction done as [| [n a] done IH]; intros images boxes classes Hall Hnone.
  - cbn [app dataset_loop].
    now rewrite (bind_err _ _ _ _ (load_and_preprocess_image_unreadable _ _ anns Hnone)).
  - inversion Hall as [| kv l Hkv Hrest]; subst. simpl in Hkv.
    destruct (cv2_imread env (os_path_join dir n)) as [raw |] eqn:Hraw;
      [| congruence].
    cbn [app dataset_loop].
    rewrite (bind_ok _ _ _ _ (load_and_preprocess_image_readable _ _ a _ Hraw)).
    cbn [fst snd]. now rewrite (IH _ _ _ Hrest Hnone).
Qed.

Lemma first_unreadable env dir (items : AnnDict) :
  Forall (fun kv => cv2_imread env (os_path_join dir (fst kv)) <> None) items \/
  exists done name anns rest,
    items = done ++ (name, anns) :: rest /\
    Forall (fun kv => cv2_imread env (os_path_join dir (fst kv)) <> None) done /\
    cv2_imread env (os_path_join dir name) = None.
Proof.
  induction items as [| [name anns] rest IH].
  - left. constructor.
  - destruct (cv2_imread env (os_path_join dir name)) as [raw |] eqn:Hraw.
    + destruct IH as [Hall | (done & n & a & r & -> & Hdone & Hnone)].
      * left. constructor; [simpl; congruence | exact Hall].
      * right. exists ((name, anns) :: done), n, a, r.
        repeat split; [| exact Hnone].
        constructor; [simpl; congruence | exact Hdone].
    + right. exists [], name, anns, rest. repeat split; [constructor | exact Hraw].
Qed.

Lemma create_test_dataset_ok env d :
  Forall (readable env) d ->
  create_test_dataset env d image_dir =
  (map EvImread (image_paths d),
   Ok (dataset_images env d, dataset_boxes d, dataset_classes d)).
Proof.
  intros H. unfold create_test_dataset, image_paths.
  unfold dataset_images, dataset_boxes, dataset_classes.
  rewrite (dataset_loop_ok env image_dir d [] [] [] H).
  now rewrite map_map.
Qed.

Lemma create_test_dataset_unreadable env done name anns rest :
  Forall (readable env) done ->
  cv2_imread env (os_path_join image_dir name) = None ->
  create_test_dataset env (done ++ (name, anns) :: rest) image_dir =
  (map EvImread (image_paths (done ++ [(name, anns)])), Err CvError).
Proof.
  intros H Hnone. unfold create_test_dataset, image_paths.
  rewrite (dataset_loop_unreadable env image_dir done name anns rest [] [] [] H Hnone).
  now rewrite map_map.
Qed.

(** The assembler either reads every image, or stops at the first one that
    does not decode; its trace holds image reads only. *)
Lemma create_test_dataset_cases env d :
  (Forall (readable env) d /\
   create_test_dataset env d image_dir =
   (map EvImread (image_paths d),
    Ok (dataset_images env d, dataset_boxes d, dataset_classes d))) \/
  (exists done name anns rest,
     d = done ++ (name, anns) :: rest /\
     create_test_dataset env d image_dir =
     (map EvImread (image_paths (done ++ [(name, anns)])), Err CvError)).
Proof.
  destruct (first_unreadable env image_dir d)
    as [Hall | (done & name & anns & rest & -> & Hdone & Hnone)].
  - left. split; [exact Hall | now apply create_test_dataset_ok].
  - right. exists done, name, anns, rest. split; [reflexivity |].
    now apply create_test_dataset_unreadable.
Qed.

(** ** Native failures (C3) *)

Lemma script_open_fails env e :
  open_read env test_annotation_file = Err e ->
  script env = ([EvOpen test_annotation_file "r"], Err e).
Proof.
  intros H. unfold script, load_annotations, lift, emit, bind. now rewrite H.
Qed.

Lemma script_json_fails env content e :
  open_read env test_annotation_file = Ok content ->
  json_load env content = Err e ->
  script env = ([EvOpen test_annotation_file "r"], Err e).
Proof.
  intros H1 H2. unfold script, load_annotations, lift, emit, bind.
  now rewrite H1, H2.
Qed.

Lemma load_annotations_ok env content d :
  open_read env test_annotation_file = Ok content ->
  json_load env content = Ok d ->
  load_annotations env test_annotation_file =
  ([EvOpen test_annotation_file "r"], Ok d).
Proof.
  intros H1 H2. unfold load_annotations, lift, emit, bind.
  now rewrite H1, H2.
Qed.

Lemma script_imread_fails env content d done name anns rest :
  open_read env test_annotation_file = Ok content ->
  json_load env content = Ok d ->
  d = done ++ (name, anns) :: rest ->
  Forall (readable env) done ->
  cv2_imread env (os_path_join image_dir name) = None ->
  script env =
  ([EvOpen test_annotation_file "r"; EvPrint (MsgLoadedAnnotations (length d))]
     ++ map EvImread (image_paths (done ++ [(name, anns)])),
   Err CvError).
Proof.
  intros H1 H2 -> Hdone Hnone. unfold script.
  rewrite (bind_ok _ _ _ _ (load_annotations_ok env content _ H1 H2)).
  unfold emit at 1. cbn [bind fst snd].
  rewrite (bind_err _ _ _ _
             (create_test_dataset_unreadable env done name anns rest Hdone Hnone)).
  reflexivity.
Qed.

Lemma script_load_model_fails env content d e :
  open_read env test_annotation_file = Ok content ->
  json_load env content = Ok d ->
  Forall (readable env) d ->
  keras_load_model env model_path = Err e ->
  script env =
  ([EvOpen test_annotation_file "r"; EvPrint (MsgLoadedAnnotations (length d))]
     ++ map EvImread (image_paths d)
     ++ [EvPrint (MsgDatasetPrepared (length d)); EvLoadModel model_path],
   Err e).
Proof.
  intros H1 H2 Hall Hm. unfold script.
  rewrite (bind_ok _ _ _ _ (load_annotations_ok env content _ H1 H2)).
  unfold emit at 1. cbn [bind fst snd].
  rewrite (bind_ok _ _ _ _ (create_test_dataset_ok env d Hall)).
  unfold emit, lift. rewrite Hm. cbn [bind fst snd app].
  unfold dataset_images. rewrite length_map. reflexivity.
Qed.

Ltac bind_ok_inv H a Hm :=
  let e := fresh "e" in
  let t := fresh "t" in
  let t' := fresh "t'" in
  let Htr := fresh "Htr" in
  apply bind_inv in H;
  destruct H as [(e & _ & H) | (t & a & t' & Hm & H & Htr)];
  [discriminate H |].

Ltac find_event :=
  repeat (apply in_or_app; first [left; simpl; left; reflexivity | right]).

(** What a run that reaches the end has computed. *)
Lemma script_ok_inv env tr g :
  script env = (tr, Ok g) ->
  (exists content,
     open_read env test_annotation_file = Ok content /\
     json_load env content = Ok (g_test_annotations g)) /\
  Forall (readable env) (g_test_annotations g) /\
  g_test_images g = dataset_images env (g_test_annotations g) /\
  g_test_boxes g = dataset_boxes (g_test_annotations g) /\
  g_test_classes g = dataset_classes (g_test_annotations g) /\
  (exists model,
     keras_load_model env model_path = Ok model /\
     predict model (g_test_images g) =
       Ok (g_predicted_boxes g, g_predicted_classes g)) /\
  g_test_boxes_denorm g = denormalize_each (g_test_boxes g) /\
  g_predicted_boxes_denorm g = denormalize_each (g_predicted_boxes g) /\
  bbox_regression_error (g_test_boxes_denorm g) (g_predicted_boxes_denorm g)
    = Ok (g_bbox_mse g) /\
  In (EvPrint (MsgBboxMse (g_bbox_mse g))) tr /\
  g_predicted_classes_binary g = threshold_classes (g_predicted_classes g) /\
  np_concatenate (g_test_classes g) = Ok (g_test_classes_flat g) /\
  np_concatenate (g_predicted_classes_binary g) = Ok (g_predicted_classes_flat g) /\
  (exists report,
     classification_report env (g_test_classes_flat g)
                           (g_predicted_classes_flat g) = Ok report /\
     In (EvPrint (MsgReport report)) tr).
Proof.
  unfold script. intros H.
  bind_ok_inv H d Hload.
  bind_ok_inv H u1 Hp1.
  bind_ok_inv H ds Hds. destruct ds as [[images boxes] classes].
  bind_ok_inv H u2 Hp2.
  bind_ok_inv H u3 Hp3.
  bind_ok_inv H model Hmodel.
  bind_ok_inv H u4 Hp4.
  bind_ok_inv H u5 Hp5.
  bind_ok_inv H preds Hpred. destruct preds as [pboxes pclasses].
  cbn [fst snd] in H.
  bind_ok_inv H v Hmse.
  bind_ok_inv H u6 Hprint.
  bind_ok_inv H tflat Htflat.
  bind_ok_inv H pflat Hpflat.
  bind_ok_inv H u7 Hp7.
  bind_ok_inv H report Hreport.
  bind_ok_inv H u8 Hprint2.
  bind_ok_inv H u9 Hvis.
  unfold ret in H. injection H as <- <-. cbn.
  unfold lift in *. unfold emit in *.
  injection Hmodel as <- Hmodel. injection Hpred as <- Hpred.
  injection Hmse as <- Hmse. injection Htflat as <- Htflat.
  injection Hpflat as <- Hpflat. injection Hreport as <- Hreport.
  injection Hprint as <-. injection Hprint2 as <-.
  unfold load_annotations in Hload.
  bind_ok_inv Hload u10 Hp10.
  bind_ok_inv Hload content Hopen.
  injection Hopen as _ Hopen. injection Hload as _ Hjson.
  destruct (create_test_dataset_cases env d)
    as [[Hall Hok] | (done & name & anns & rest & _ & Hbad)];
    [| rewrite Hbad in Hds; discriminate Hds].
  rewrite Hok in Hds. injection Hds as _ <- <- <-.
  subst.
  repeat match goal with |- _ /\ _ => split end; try reflexivity; try assumption.
  - now exists content.
  - now exists model.
  - find_event.
  - exists report. split; [assumption | find_event].
Qed.

(** C3: the script handles no error itself.  Whatever opening or parsing the
    annotation file raises, the decoding failure of an image, and whatever
    loading the model raises, each ends the run with that very exception;
    the trace stops at the failing call, which was made once. *)
Theorem native_errors_propagate env :
  (forall e,
     open_read env test_annotation_file = Err e ->
     script env = ([EvOpen test_annotation_file "r"], Err e)) /\
  (forall content e,
     open_read env test_annotation_file = Ok content ->
     json_load env content = Err e ->
     script env = ([EvOpen test_annotation_file "r"], Err e)) /\
  (forall content d done name anns rest,
     open_read env test_annotation_file = Ok content ->
     json_load env content = Ok d ->
     d = done ++ (name, anns) :: rest ->
     Forall (readable env) done ->
     cv2_imread env (os_path_join image_dir name) = None ->
     script env =
     ([EvOpen test_annotation_file "r";
       EvPrint (MsgLoadedAnnotations (length d))]
        ++ map EvImread (image_paths (done ++ [(name, anns)])),
      Err CvError)) /\
  (forall content d e,
     open_read env test_annotation_file = Ok content ->
     json_load env content = Ok d ->
     Forall (readable env) d ->
     keras_load_model env model_path = Err e ->
     script env =
     ([EvOpen test_annotation_file "r";
       EvPrint (MsgLoadedAnnotations (length d))]
        ++ map EvImread (image_paths d)
        ++ [EvPrint (MsgDatasetPrepared (length d)); EvLoadModel model_path],
      Err e)).
Proof.
  split; [| split; [| split]].
  - apply script_open_fails.
  - apply script_json_fails.
  - apply script_imread_fails.
  - apply script_load_model_fails.
Qed.

Lemma native_errors_propagate_witness :
  script (sample_env (Err FileNotFoundError) sample_annotations "missing.png"
            (Ok sample_model))
  = ([EvOpen test_annotation_file "r"], Err FileNotFoundError) /\
  script (sample_env (Ok "not json") sample_annotations "missing.png"
            (Ok sample_model))
  = ([EvOpen test_annotation_file "r"], Err JSONDecodeError) /\
  script (sample_env (Ok "annotations") sample_annotations "b.png"
            (Ok sample_model))
  = ([EvOpen test_annotation_file "r"; EvPrint (MsgLoadedAnnotations 5);
      EvImread "../data/images/a.png"; EvImread "../data/images/b.png"],
     Err CvError) /\
  script (sample_env (Ok "annotations") sample_annotations "missing.png"
            (Err OSError))
  = ([EvOpen test_annotation_file "r"; EvPrint (MsgLoadedAnnotations 5);
      EvImread "../data/images/a.png"; EvImread "../data/images/b.png";
      EvImread "../data/images/c.png"; EvImread "../data/images/d.png";
      EvImread "../data/images/e.png";
      EvPrint (MsgDatasetPrepared 5); EvLoadModel model_path],
     Err OSError).
Proof.
  split; [| split; [| split]].
  - apply (proj1 (native_errors_propagate _)). reflexivity.
  - apply (proj1 (proj2 (native_errors_propagate _)) "not json"); reflexivity.
  - apply (proj1 (proj2 (proj2 (native_errors_propagate
             (sample_env (Ok "annotations") sample_annotations "b.png"
            (Ok sample_model)))))
             "annotations" sample_annotations
             [("a.png", [sample_ann "Fault"])]
             "b.png" [sample_ann_void]
             [("c.png", [sample_ann "Fault"]);
              ("d.png", [sample_ann "Uneven Finish Line"]);
              ("e.png", [sample_ann "Fault"])]); try reflexivity.
    constructor; [| constructor]. unfold readable. simpl. discriminate.
  - apply (proj2 (proj2 (proj2 (native_errors_propagate
             (sample_env (Ok "annotations") sample_annotations "missing.png"
            (Err OSError)))))
             "annotations" sample_annotations); try reflexivity.
    repeat constructor; unfold readable; simpl; discriminate.
Defined.

(** ** The annotation file is only read (C8) *)

Lemma opens_app t t' : opens (t ++ t') = opens t ++ opens t'.
Proof. unfold opens. apply flat_map_app. Qed.

Lemma quiet_bind {A B} (m : M A) (f : A -> M B) :
  quiet m -> (forall a, quiet (f a)) -> quiet (bind m f).
Proof.
  unfold quiet. destruct m as [t [a | e]]; simpl; intros Hm Hf.
  - specialize (Hf a). destruct (f a) as [t' r]. simpl in *.
    now rewrite opens_app, Hm, Hf.
  - exact Hm.
Qed.

Lemma quiet_lift {A} (r : result A) : quiet (lift r).
Proof. reflexivity. Qed.

Lemma quiet_load_and_preprocess_image env path anns :
  quiet (load_and_preprocess_image env path anns).
Proof.
  unfold load_and_preprocess_image.
  apply quiet_bind; [reflexivity | intros _].
  destruct (cv2_imread env path); [| reflexivity].
  now destruct (labels_loop anns [] []).
Qed.

Lemma quiet_dataset_loop env dir items : forall images boxes classes,
  quiet (dataset_loop env items dir images boxes classes).
Proof.
  induction items as [| [name anns] rest IH]; intros images boxes classes.
  - reflexivity.
  - cbn [dataset_loop]. apply quiet_bind.
    + apply quiet_load_and_preprocess_image.
    + intros [[img b] c]. apply IH.
Qed.

Lemma quiet_for_each {A} (xs : list A) (body : A -> M unit) :
  (forall x, quiet (body x)) -> quiet (for_each xs body).
Proof.
  intros H. induction xs as [| x rest IH]; [reflexivity |].
  cbn [for_each]. apply quiet_bind; [apply H | intros _; exact IH].
Qed.

Lemma quiet_visualization_stage env imgs tbs pbs tcs pcs :
  quiet (visualization_stage env imgs tbs pbs tcs pcs).
Proof.
  unfold visualization_stage. apply quiet_for_each. intros i.
  repeat (apply quiet_bind; [apply quiet_lift | intros ?]).
  reflexivity.
Qed.

Lemma script_opens env :
  opens (fst (script env)) = [(test_annotation_file, "r")].
Proof.
  unfold script.
  assert (Hrest : forall (k : AnnDict -> M Globals),
             (forall d, quiet (k d)) ->
             opens (fst (bind (load_annotations env test_annotation_file) k))
             = [(test_annotation_file, "r")]).
  { intros k Hk. unfold load_annotations, lift, emit.
    destruct (open_read env test_annotation_file) as [content | e];
      [| reflexivity].
    cbn [bind app].
    destruct (json_load env content) as [d | e]; [| reflexivity].
    specialize (Hk d). unfold quiet in Hk.
    destruct (k d) as [t r]. cbn [fst] in *.
    change (opens (EvOpen test_annotation_file "r" :: t))
      with ((test_annotation_file, "r") :: opens t).
    now rewrite Hk. }
  apply Hrest. intros d.
  apply quiet_bind; [reflexivity | intros _].
  apply quiet_bind; [apply quiet_dataset_loop | intros [[images boxes] classes]].
  repeat (apply quiet_bind;
          [first [apply quiet_lift | apply quiet_visualization_stage
                  | reflexivity]
          | intros ?]).
  reflexivity.
Qed.

(** C8: on every run, whatever the environment and the outcome, the script
    opens one file once, the annotation file, in mode 'r'; and the dictionary
    bound to [test_annotations] when the run ends is the one [json.load]
    returned. *)
Theorem annotations_read_only env tr r :
  script env = (tr, r) ->
  opens tr = [(test_annotation_file, "r")] /\
  (forall g, r = Ok g ->
     exists content,
       open_read env test_annotation_file = Ok content /\
       json_load env content = Ok (g_test_annotations g)).
Proof.
  intros H. split.
  - pose proof (script_opens env) as Ho. now rewrite H in Ho.
  - intros g ->. now apply script_ok_inv in H.
Qed.

(** ** The visualization stage (C10) *)

Local Open Scope nat_scope.

Lemma getitem_lt {A} (arr : list A) i d :
  i < length arr -> getitem arr i = Ok (nth i arr d).
Proof.
  intros H. unfold getitem. now rewrite (nth_error_nth' arr d H).
Qed.

Lemma getitem_ge {A} (arr : list A) i :
  length arr <= i -> getitem arr i = Err IndexError.
Proof.
  intros H. unfold getitem.
  now rewrite (proj2 (nth_error_None arr i) H).
Qed.

Lemma for_each_all_ok {A} (xs : list A) (body : A -> M unit) (ev : A -> Event) :
  (forall x, In x xs -> body x = ([ev x], Ok tt)) ->
  for_each xs body = (map ev xs, Ok tt).
Proof.
  induction xs as [| x rest IH]; intros H; [reflexivity |].
  cbn [for_each]. rewrite (bind_ok _ _ _ _ (H x (or_introl eq_refl))).
  rewrite IH by (intros y Hy; apply H; now right). reflexivity.
Qed.

Lemma for_each_stops {A} (done : list A) x rest (body : A -> M unit)
      (ev : A -> Event) e :
  (forall y, In y done -> body y = ([ev y], Ok tt)) ->
  body x = ([], Err e) ->
  for_each (done ++ x :: rest) body = (map ev done, Err e).
Proof.
  induction done as [| y done IH]; intros H Hx.
  - cbn [app for_each]. now rewrite (bind_err _ _ _ _ Hx).
  - cbn [app for_each]. rewrite (bind_ok _ _ _ _ (H y (or_introl eq_refl))).
    rewrite IH by (try (intros z Hz; apply H; now right); exact Hx).
    reflexivity.
Qed.

Section VisualizationStage.

Variable env : Env.
Variable test_images : list ImageF.
Variables test_boxes_denorm predicted_boxes_denorm : list (list (Box Z)).
Variables test_classes predicted_classes_binary : list (list Z).

Hypothesis Htb : length test_boxes_denorm = length test_images.
Hypothesis Hpb : length predicted_boxes_denorm = length test_images.
Hypothesis Htc : length test_classes = length test_images.
Hypothesis Hpc : length predicted_classes_binary = length test_images.

Local Abbreviation body :=
  (visualize_sample env test_images test_boxes_denorm predicted_boxes_denorm
                    test_classes predicted_classes_binary).

Local Abbreviation shown :=
  (shown_sample env test_images test_boxes_denorm predicted_boxes_denorm
                test_classes predicted_classes_binary).

Lemma visualization_body_shows i :
  i < length test_images -> body i = ([shown i], Ok tt).
Proof.
  intros Hi. unfold visualize_sample, shown_sample, sample_figure.
  rewrite (getitem_lt test_images i []) by exact Hi.
  rewrite (getitem_lt test_boxes_denorm i []) by now rewrite Htb.
  rewrite (getitem_lt predicted_boxes_denorm i []) by now rewrite Hpb.
  rewrite (getitem_lt test_classes i []) by now rewrite Htc.
  rewrite (getitem_lt predicted_classes_binary i []) by now rewrite Hpc.
  reflexivity.
Qed.

Lemma visualization_body_index_error i :
  length test_images <= i -> body i = ([], Err IndexError).
Proof.
  intros Hi. unfold visualize_sample.
  now rewrite (getitem_ge test_images i Hi).
Qed.

Lemma visualization_stage_five :
  5 <= length test_images ->
  visualization_stage env test_images test_boxes_denorm
                      predicted_boxes_denorm test_classes
                      predicted_classes_binary
  = (map shown [0; 1; 2; 3; 4], Ok tt).
Proof.
  intros Hn. change [0; 1; 2; 3; 4] with (seq 0 5).
  apply (for_each_all_ok (seq 0 5) body shown).
  intros i Hi. apply in_seq in Hi. apply visualization_body_shows. lia.
Qed.

Lemma visualization_stage_short :
  length test_images < 5 ->
  visualization_stage env test_images test_boxes_denorm
                      predicted_boxes_denorm test_classes
                      predicted_classes_binary
  = (map shown (seq 0 (length test_images)), Err IndexError).
Proof.
  intros Hn. unfold visualization_stage.
  replace 5 with (length test_images + S (4 - length test_images)) by lia.
  rewrite seq_app. cbn [seq plus].
  apply for_each_stops.
  - intros i Hi. apply in_seq in Hi. apply visualization_body_shows. lia.
  - apply visualization_body_index_error. lia.
Qed.

End VisualizationStage.

(** ** A complete run *)

Lemma length_denormalize_each bs : length (denormalize_each bs) = length bs.
Proof. apply length_map. Qed.

Lemma length_threshold_classes pcs : length (threshold_classes pcs) = length pcs.
Proof. apply length_map. Qed.

Lemma length_dataset_images env d : length (dataset_images env d) = length d.
Proof. apply length_map. Qed.

Lemma length_dataset_boxes d : length (dataset_boxes d) = length d.
Proof. apply length_map. Qed.

Lemma length_dataset_classes d : length (dataset_classes d) = length d.
Proof. apply length_map. Qed.

Section CompleteRun.

Variable env : Env.
Variables (content : string) (d : AnnDict) (model : Model).
Variables (pb : list (list (Box Q))) (pc : list (list Q)).
Variables (v : Q) (tflat pflat : list Z) (report : string).

Hypothesis Hopen : open_read env test_annotation_file = Ok content.
Hypothesis Hjson : json_load env content = Ok d.
Hypothesis Hall : Forall (readable env) d.
Hypothesis Hmodel : keras_load_model env model_path = Ok model.
Hypothesis Hpred : predict model (dataset_images env d) = Ok (pb, pc).
Hypothesis Hmse :
  bbox_regression_error (denormalize_each (dataset_boxes d))
                        (denormalize_each pb) = Ok v.
Hypothesis Htf : np_concatenate (dataset_classes d) = Ok tflat.
Hypothesis Hpf : np_concatenate (threshold_classes pc) = Ok pflat.
Hypothesis Hrep : classification_report env tflat pflat = Ok report.

(** When no library call fails before it, the display loop is reached with
    the trace of the earlier stages behind it. *)
Lemma script_until_visualization :
  script env =
  let m :=
    visualization_stage env (dataset_images env d)
      (denormalize_each (dataset_boxes d)) (denormalize_each pb)
      (dataset_classes d) (threshold_classes pc) ;;;
    ret (final_globals env d pb pc v tflat pflat) in
  (trace_before_visualization d v report ++ fst m, snd m).
Proof.
  pose proof (length_dataset_images env d) as Hli.
  unfold script.
  rewrite (bind_ok _ _ _ _ (load_annotations_ok env content _ Hopen Hjson)).
  unfold emit at 1. cbn [bind fst snd].
  rewrite (bind_ok _ _ _ _ (create_test_dataset_ok env d Hall)).
  unfold emit, lift. rewrite Hmodel. cbn [bind fst snd app].
  rewrite Hpred. cbn [bind fst snd app]. rewrite Hmse. cbn [bind fst snd app].
  rewrite Htf, Hpf. cbn [bind fst snd app]. rewrite Hrep.
  cbn [bind fst snd app]. rewrite Hli.
  unfold trace_before_visualization, final_globals.
  destruct (bind _ _) as [t r]. cbn [fst snd app].
  now rewrite <- !app_assoc.
Qed.

Hypothesis Hlb : length pb = length d.
Hypothesis Hlc : length pc = length d.

(** With at least five images the script runs to its end. *)
Lemma script_succeeds :
  5 <= length d ->
  script env =
  (trace_before_visualization d v report
     ++ map (shown_in_run env d pb pc) [0; 1; 2; 3; 4],
   Ok (final_globals env d pb pc v tflat pflat)).
Proof.
  intros H5. rewrite script_until_visualization. cbv zeta.
  rewrite (visualization_stage_five env (dataset_images env d)
             (denormalize_each (dataset_boxes d)) (denormalize_each pb)
             (dataset_classes d) (threshold_classes pc)).
  - unfold ret. cbn [bind fst snd]. now rewrite app_nil_r.
  - now rewrite length_denormalize_each, length_dataset_boxes,
      length_dataset_images.
  - now rewrite length_denormalize_each, Hlb, length_dataset_images.
  - now rewrite length_dataset_classes, length_dataset_images.
  - now rewrite length_threshold_classes, Hlc, length_dataset_images.
  - now rewrite length_dataset_images.
Qed.

(** With fewer than five images it shows them all and then fails. *)
Lemma script_short :
  length d < 5 ->
  script env =
  (trace_before_visualization d v report
     ++ map (shown_in_run env d pb pc) (seq 0 (length d)),
   Err IndexError).
Proof.
  intros H5. rewrite script_until_visualization. cbv zeta.
  rewrite (visualization_stage_short env (dataset_images env d)
             (denormalize_each (dataset_boxes d)) (denormalize_each pb)
             (dataset_classes d) (threshold_classes pc)).
  - cbn [bind fst snd]. now rewrite length_dataset_images.
  - now rewrite length_denormalize_each, length_dataset_boxes,
      length_dataset_images.
  - now rewrite length_denormalize_each, Hlb, length_dataset_images.
  - now rewrite length_dataset_classes, length_dataset_images.
  - now rewrite length_threshold_classes, Hlc, length_dataset_images.
  - now rewrite length_dataset_images.
Qed.

End CompleteRun.

Lemma good_env_readable : Forall (readable good_env) sample_annotations.
Proof. repeat constructor; unfold readable; simpl; discriminate. Qed.

(** The run of the script in the sample environment. *)
Lemma script_good_env :
  exists tr g,
    script good_env = (tr, Ok g) /\
    g_test_annotations g = sample_annotations /\
    g_test_classes g = [[1]; [0]; [1]; [0]; [1]]%Z /\
    g_test_boxes_denorm g =
      [[mkBox 32 16 96 64]; [mkBox 0 0 64 64]; [mkBox 32 16 96 64];
       [mkBox 32 16 96 64]; [mkBox 32 16 96 64]]%Z /\
    g_predicted_classes_flat g = [1; 1; 1; 1; 1]%Z /\
    (g_bbox_mse g == round64 (576 # 5))%Q.
Proof.
  eexists _, _. split.
  - eapply (script_succeeds good_env "annotations" sample_annotations
                              sample_model);
      try reflexivity; exact good_env_readable.
  - repeat split; reflexivity.
Qed.

Lemma annotations_read_only_witness :
  exists tr g,
    script good_env = (tr, Ok g) /\
    opens tr = [(test_annotation_file, "r")] /\
    g_test_annotations g = sample_annotations.
Proof.
  eexists _, _.
  match goal with |- ?P /\ _ => assert (E : P) end.
  { eapply (script_succeeds good_env "annotations" sample_annotations
                              sample_model);
      try reflexivity; exact good_env_readable. }
  split; [exact E |].
  split; [exact (proj1 (annotations_read_only good_env _ _ E)) | reflexivity].
Defined.

(** C10: the display loop indexes samples 0 to 4 whatever the size of the
    dataset.  With at least 5 images it shows samples 0 through 4 and nothing
    else; with fewer it shows every available sample, in order, and then
    fails with [IndexError].  This holds of the stage on any five arrays of
    equal length, and of every run whose earlier stages succeed. *)
Theorem visualization_first_five :
  (forall env test_images test_boxes_denorm predicted_boxes_denorm
          test_classes predicted_classes_binary,
     length test_boxes_denorm = length test_images ->
     length predicted_boxes_denorm = length test_images ->
     length test_classes = length test_images ->
     length predicted_classes_binary = length test_images ->
     (5 <= length test_images ->
      visualization_stage env test_images test_boxes_denorm
        predicted_boxes_denorm test_classes predicted_classes_binary
      = (map (shown_sample env test_images test_boxes_denorm
                predicted_boxes_denorm test_classes predicted_classes_binary)
             [0; 1; 2; 3; 4], Ok tt)) /\
     (length test_images < 5 ->
      visualization_stage env test_images test_boxes_denorm
        predicted_boxes_denorm test_classes predicted_classes_binary
      = (map (shown_sample env test_images test_boxes_denorm
                predicted_boxes_denorm test_classes predicted_classes_binary)
             (seq 0 (length test_images)), Err IndexError))) /\
  (forall env content d model pb pc v tflat pflat report,
     open_read env test_annotation_file = Ok content ->
     json_load env content = Ok d ->
     Forall (readable env) d ->
     keras_load_model env model_path = Ok model ->
     predict model (dataset_images env d) = Ok (pb, pc) ->
     bbox_regression_error (denormalize_each (dataset_boxes d))
                           (denormalize_each pb) = Ok v ->
     np_concatenate (dataset_classes d) = Ok tflat ->
     np_concatenate (threshold_classes pc) = Ok pflat ->
     classification_report env tflat pflat = Ok report ->
     length pb = length d ->
     length pc = length d ->
     (5 <= length d ->
      script env =
      (trace_before_visualization d v report
         ++ map (shown_in_run env d pb pc) [0; 1; 2; 3; 4],
       Ok (final_globals env d pb pc v tflat pflat))) /\
     (length d < 5 ->
      script env =
      (trace_before_visualization d v report
         ++ map (shown_in_run env d pb pc) (seq 0 (length d)),
       Err IndexError))).
Proof.
  split.
  - intros env imgs tbs pbs tcs pcs Htb Hpb Htc Hpc. split.
    + now apply visualization_stage_five.
    + now apply visualization_stage_short.
  - intros env content d model pb pc v tflat pflat report
           Hopen Hjson Hall Hmodel Hpred Hmse Htf Hpf Hrep Hlb Hlc. split.
    + now apply (script_succeeds env content d model).
    + now apply (script_short env content d model pb pc v tflat pflat report).
Qed.

Lemma small_env_readable : Forall (readable small_env) (firstn 2 sample_annotations).
Proof. repeat constructor; unfold readable; simpl; discriminate. Qed.

Lemma visualization_first_five_witness :
  (visualization_stage good_env (repeat sample_image 5)
     (repeat [mkBox 32 16 96 64]%Z 5) (repeat [mkBox 32 16 96 64]%Z 5)
     (repeat [1%Z] 5) (repeat [1%Z] 5)
   = (map (shown_sample good_env (repeat sample_image 5)
             (repeat [mkBox 32 16 96 64]%Z 5) (repeat [mkBox 32 16 96 64]%Z 5)
             (repeat [1%Z] 5) (repeat [1%Z] 5))
          [0; 1; 2; 3; 4], Ok tt)) /\
  (visualization_stage good_env (repeat sample_image 2)
     (repeat [mkBox 32 16 96 64]%Z 2) (repeat [mkBox 32 16 96 64]%Z 2)
     (repeat [1%Z] 2) (repeat [1%Z] 2)
   = (map (shown_sample good_env (repeat sample_image 2)
             (repeat [mkBox 32 16 96 64]%Z 2) (repeat [mkBox 32 16 96 64]%Z 2)
             (repeat [1%Z] 2) (repeat [1%Z] 2))
          [0; 1], Err IndexError)) /\
  (exists tr g, script good_env = (tr, Ok g)) /\
  (exists tr, script small_env = (tr, Err IndexError)).
Proof.
  split; [| split; [| split]].
  - apply (proj1 (proj1 visualization_first_five good_env
                    (repeat sample_image 5)
                    (repeat [mkBox 32 16 96 64]%Z 5)
                    (repeat [mkBox 32 16 96 64]%Z 5)
                    (repeat [1%Z] 5) (repeat [1%Z] 5)
                    eq_refl eq_refl eq_refl eq_refl)).
    simpl. lia.
  - apply (proj2 (proj1 visualization_first_five good_env
                    (repeat sample_image 2)
                    (repeat [mkBox 32 16 96 64]%Z 2)
                    (repeat [mkBox 32 16 96 64]%Z 2)
                    (repeat [1%Z] 2) (repeat [1%Z] 2)
                    eq_refl eq_refl eq_refl eq_refl)).
    simpl. lia.
  - edestruct (proj2 visualization_first_five good_env "annotations"
                 sample_annotations sample_model) as [H _];
      [.. | eexists _, _; apply H; simpl; lia];
      try reflexivity; exact good_env_readable.
  - edestruct (proj2 visualization_first_five small_env "annotations"
                 (firstn 2 sample_annotations) sample_model) as [_ H];
      [.. | eexists; apply H; simpl; lia];
      try reflexivity; exact small_env_readable.
Defined.

(** ** Thresholded class predictions (C5) *)

Lemma np_concatenate_ok {A} (arrays : list (list A)) flat :
  np_concatenate arrays = Ok flat -> flat = concat arrays.
Proof.
  unfold np_concatenate. destruct arrays; [discriminate |]. now intros [= <-].
Qed.

Lemma threshold_class_spec (s : Q) :
  let b := if Qgtb s (1 # 2) then 1%Z else 0%Z in
  (b = 1%Z <-> (1 # 2 < s)%Q) /\ (b = 0%Z <-> (s <= 1 # 2)%Q).
Proof.
  cbv zeta. destruct (Qgtb s (1 # 2)) eqn:E.
  - pose proof (proj1 (Qgtb_spec _ _) E) as Hlt. split; split; intros H;
      try reflexivity; try assumption; try discriminate.
    exfalso. now apply (Qlt_not_le _ _ Hlt).
  - pose proof (proj1 (Qgtb_false _ _) E) as Hle. split; split; intros H;
      try reflexivity; try assumption; try discriminate.
    exfalso. now apply (Qlt_not_le _ _ H).
Qed.

(** ** The visualizer (C6) *)








(** ** The preprocessed image (C7) *)

Lemma u8_in_unit b : in_unit (fdiv (u8_to_Q b) 255).
Proof.
  pose proof (Byte.to_N_bounded b) as Hb.
  unfold in_unit, fdiv. split.
  - apply round64_nonneg.
    unfold u8_to_Q, Qle, Qdiv, Qmult, Qinv, inject_Z. simpl. lia.
  - apply round64_le; [exact representable_1 | discriminate |].
    unfold u8_to_Q, Qle, Qdiv, Qmult, Qinv, inject_Z. simpl. lia.
Qed.

Lemma scale_pixels_shape image h w :
  has_shape image h w -> has_shape (scale_pixels image) h w.
Proof.
  unfold has_shape, scale_pixels. intros [Hh Hw]. split.
  - now rewrite length_map.
  - rewrite Forall_map. revert Hw. apply Forall_impl. intros row Hrow.
    now rewrite length_map.
Qed.

Lemma scale_pixels_in_unit image :
  Forall (Forall pixel_in_unit) (scale_pixels image).
Proof.
  unfold scale_pixels. rewrite Forall_map. apply Forall_forall. intros row _.
  rewrite Forall_map. apply Forall_forall. intros [[b g] r] _.
  repeat split; apply u8_in_unit.
Qed.

Lemma scale_pixels_pixel_at image i j :
  pixel_at (scale_pixels image) i j
  = option_map scaled_pixel (pixel_at image i j).
Proof.
  unfold pixel_at, scale_pixels. rewrite nth_error_map.
  destruct (nth_error image i) as [row |]; [| reflexivity]. cbn [option_map].
  rewrite nth_error_map.
  destruct (nth_error row j) as [[[b g] r] |]; reflexivity.
Qed.

Lemma nn_resize_shape {A} (d : A) image w h :
  has_shape (nn_resize d image w h) h w.
Proof.
  unfold has_shape, nn_resize. split.
  - now rewrite length_map, length_seq.
  - rewrite Forall_map. apply Forall_forall. intros r _.
    now rewrite length_map, length_seq.
Qed.

(** C7: provided [cv2.resize] returns an image of the size it is asked for,
    every image [load_and_preprocess_image] returns is a grid of 128 rows of
    128 pixels whose intensities all lie in [0,1]; the pixel at each
    position is the pixel the resized image has at that position, each of
    its three channels divided by 255. *)
Theorem preprocessed_image_shape env path anns tr img boxes classes :
  resize_contract env ->
  load_and_preprocess_image env path anns = (tr, Ok (img, boxes, classes)) ->
  has_shape img 128 128 /\
  Forall (Forall pixel_in_unit) img /\
  exists raw,
    cv2_imread env path = Some raw /\
    forall i j,
      pixel_at img i j
      = option_map scaled_pixel (pixel_at (cv2_resize_u8 env raw 128 128) i j).
Proof.
  intros Hc H. apply load_and_preprocess_image_ok in H.
  destruct H as (raw & Hraw & _ & -> & _ & _). split; [| split].
  - apply scale_pixels_shape, Hc.
  - apply scale_pixels_in_unit.
  - exists raw. split; [exact Hraw |]. intros i j.
    apply scale_pixels_pixel_at.
Qed.

Lemma preprocessed_image_shape_witness :
  exists tr img boxes classes,
    load_and_preprocess_image good_env "../data/images/a.png"
                              [sample_ann "Fault"]
    = (tr, Ok (img, boxes, classes)) /\
    has_shape img 128 128 /\
    Forall (Forall pixel_in_unit) img /\
    pixel_at img 127 127 = Some (scaled_pixel (x00, x80, xff)).
Proof.
  eexists _, _, _, _.
  pose proof (load_and_preprocess_image_readable good_env
                "../data/images/a.png" [sample_ann "Fault"]
                [[(x00, x80, xff)]] eq_refl) as E.
  split; [exact E |].
  destruct (fun Hc => preprocessed_image_shape good_env _ _ _ _ _ _ Hc E)
    as (Hs & Hu & raw & Hraw & Hp).
  { intros image w h. apply nn_resize_shape. }
  split; [exact Hs | split; [exact Hu |]].
  rewrite Hp. injection Hraw as <-. reflexivity.
Defined.

(** ** The bounding-box regression score (C4) *)

Lemma mean_squared_error_inv yt yp v :
  mean_squared_error yt yp = Ok v ->
  length yt = length yp /\ yt <> [] /\
  v = np_average
        [ np_average_int (squared_errors bx1 yt yp);
          np_average_int (squared_errors by1 yt yp);
          np_average_int (squared_errors bx2 yt yp);
          np_average_int (squared_errors by2 yt yp) ].
Proof.
  unfold mean_squared_error.
  destruct (length yt =? length yp) eqn:El; [| discriminate].
  destruct (length yt =? 0) eqn:E0; [discriminate |].
  cbn [negb]. intros [= <-].
  apply Nat.eqb_eq in El. apply Nat.eqb_neq in E0.
  split; [exact El |]. split; [now destruct yt | reflexivity].
Qed.

Lemma mean_squared_error_spec yt yp v :
  mean_squared_error yt yp = Ok v -> length yt = length yp /\ yt <> [].
Proof.
  intros H. apply mean_squared_error_inv in H. tauto.
Qed.

Lemma concat_denormalize_each (bs : list (list (Box Q))) :
  concat (denormalize_each bs) = denormalize_boxes (concat bs) image_size.
Proof.
  unfold denormalize_each, denormalize_boxes. now rewrite concat_map.
Qed.

Lemma denormalize_coordinate_pixel (c : Q) :
  astype_int (fmul c (to_float image_size)) = astype_int (fmul c 128).
Proof.
  apply astype_int_Qeq. now rewrite to_float_image_size.
Qed.

(** The rows [denormalize_boxes] computes are the pixel-space rows. *)
Lemma denormalize_boxes_pixel (bs : list (Box Q)) :
  denormalize_boxes bs image_size = map pixel_box bs.
Proof.
  unfold denormalize_boxes, pixel_box. apply map_ext. intros b.
  now rewrite !denormalize_coordinate_pixel.
Qed.

Lemma np_concatenate_rows_ok {A} (arrays : list (list A)) flat :
  np_concatenate_rows arrays = Ok flat -> flat = concat arrays.
Proof.
  unfold np_concatenate_rows. destruct arrays; [discriminate |].
  destruct (_ && _); [discriminate |]. now intros [= <-].
Qed.

(** What the metrics stage averages when it computes a score: the
    pixel-space rows of all ground-truth boxes against those of all
    predicted boxes. *)
Lemma bbox_regression_error_inv test_boxes predicted_boxes v :
  bbox_regression_error (denormalize_each test_boxes)
                        (denormalize_each predicted_boxes) = Ok v ->
  mean_squared_error (map pixel_box (concat test_boxes))
                     (map pixel_box (concat predicted_boxes)) = Ok v.
Proof.
  unfold bbox_regression_error.
  destruct (np_concatenate_rows (denormalize_each test_boxes)) as [yt |] eqn:Et;
    [| discriminate].
  destruct (np_concatenate (denormalize_each predicted_boxes)) as [yp |] eqn:Ep;
    [| discriminate].
  apply np_concatenate_rows_ok in Et. apply np_concatenate_ok in Ep.
  subst yt yp.
  now rewrite !concat_denormalize_each, !denormalize_boxes_pixel.
Qed.

(** *** Accuracy of the score *)

Lemma squared_error_exact (a b : Z) :
  (Z.abs a <= 2 ^ 15)%Z -> (Z.abs b <= 2 ^ 15)%Z ->
  wrap64 (wrap64 (a - b) ^ 2) = ((a - b) ^ 2)%Z /\
  (0 <= (a - b) ^ 2 <= 2 ^ 32)%Z.
Proof.
  intros Ha Hb.
  assert (Hd : (Z.abs (a - b) <= 2 ^ 16)%Z) by lia.
  assert (Hsq : (0 <= (a - b) ^ 2 <= 2 ^ 32)%Z).
  { rewrite Z.pow_2_r. change (2 ^ 32)%Z with (2 ^ 16 * 2 ^ 16)%Z.
    change (2 ^ 16)%Z with 65536%Z in *. nia. }
  split; [| exact Hsq].
  rewrite (wrap64_small (a - b)) by (unfold int64_min, int64_max; lia).
  apply wrap64_small. unfold int64_min, int64_max. lia.
Qed.

Lemma squared_errors_exact (sel : Box Z -> Z) (yt : list (Box Z)) :
  (forall b, box_below (2 ^ 15) b -> (Z.abs (sel b) <= 2 ^ 15)%Z) ->
  forall yp,
  Forall (box_below (2 ^ 15)) yt -> Forall (box_below (2 ^ 15)) yp ->
  squared_errors sel yt yp = squared_differences sel yt yp /\
  Forall (fun z => (0 <= z <= 2 ^ 32)%Z) (squared_differences sel yt yp).
Proof.
  intros Hsel. unfold squared_errors, squared_differences.
  induction yt as [| t yt IH]; intros [| p yp] Ht Hp;
    try (split; [reflexivity | constructor]).
  inversion Ht as [| ? ? Ht1 Ht2]; inversion Hp as [| ? ? Hp1 Hp2]; subst.
  destruct (IH yp Ht2 Hp2) as [E F].
  destruct (squared_error_exact (sel t) (sel p) (Hsel t Ht1) (Hsel p Hp1))
    as [E1 F1].
  cbn [combine map fst snd]. split.
  - now rewrite E1, E.
  - constructor; assumption.
Qed.

Lemma Zsum_bounds (zs : list Z) :
  Forall (fun z => (0 <= z <= 2 ^ 32)%Z) zs ->
  (0 <= Zsum zs <= 2 ^ 32 * Z.of_nat (length zs))%Z.
Proof.
  induction 1 as [| z zs Hz _ IH]; [simpl; lia |].
  cbn [Zsum fold_right length]. fold (Zsum zs). lia.
Qed.

(** The float sum of integers is exact as long as it stays below [2^53]. *)
Lemma fold_sum_ints (zs : list Z) : forall (acc : Q) (a : Z),
  Forall (fun z => (0 <= z <= 2 ^ 32)%Z) zs ->
  (acc == inject_Z a)%Q -> (0 <= a)%Z ->
  (a + 2 ^ 32 * Z.of_nat (length zs) < 2 ^ 53)%Z ->
  (fold_left (fun acc x => round64 (acc + x)) (map to_float zs) acc
   == inject_Z (a + Zsum zs))%Q.
Proof.
  induction zs as [| z zs IH]; intros acc a Hall E Ha Hlt.
  - cbn. rewrite Z.add_0_r. exact E.
  - inversion Hall as [| ? ? Hz Hzs]; subst.
    cbn [map fold_left Zsum fold_right length] in *. fold (Zsum zs).
    rewrite Z.add_assoc. apply IH; [exact Hzs | | lia | lia].
    rewrite E, (to_float_exact z) by lia.
    rewrite <- inject_Z_plus. apply round64_exact, representable_int. lia.
Qed.

Lemma float_sum_ints (zs : list Z) :
  Forall (fun z => (0 <= z <= 2 ^ 32)%Z) zs ->
  (length zs <= 2 ^ 20)%nat ->
  (float_sum (map to_float zs) == inject_Z (Zsum zs))%Q.
Proof.
  intros Hall Hlen. unfold float_sum.
  rewrite (fold_sum_ints zs 0 0 Hall); [reflexivity | reflexivity | lia |].
  assert (Z.of_nat (length zs) <= 2 ^ 20)%Z.
  { apply Nat2Z.inj_le in Hlen. rewrite Nat2Z.inj_pow in Hlen. exact Hlen. }
  lia.
Qed.

Lemma Qmult_le_compat_l (c x y : Q) : (0 <= c -> x <= y -> c * x <= c * y)%Q.
Proof.
  intros Hc H. rewrite (Qmult_comm c x), (Qmult_comm c y).
  now apply Qmult_le_compat_r.
Qed.

Lemma rel_lo_bounds : (0 < 1 - pow2 (-53) /\ 1 - pow2 (-53) <= 1)%Q.
Proof. split; [reflexivity | discriminate]. Qed.

Lemma rel_hi_bounds : (1 <= 1 + pow2 (-53))%Q.
Proof. discriminate. Qed.

Lemma rel_lo_succ (k : Z) :
  ((1 - pow2 (-53)) ^ (k + 1) == (1 - pow2 (-53)) ^ k * (1 - pow2 (-53)))%Q.
Proof. rewrite Qpower_plus by discriminate. reflexivity. Qed.

Lemma rel_hi_succ (k : Z) :
  ((1 + pow2 (-53)) ^ (k + 1) == (1 + pow2 (-53)) ^ k * (1 + pow2 (-53)))%Q.
Proof. rewrite Qpower_plus by discriminate. reflexivity. Qed.

Lemma rel_lo_pos (k : Z) : (0 < (1 - pow2 (-53)) ^ k)%Q.
Proof. apply Qpower_0_lt. reflexivity. Qed.

Lemma rel_hi_pos (k : Z) : (0 < (1 + pow2 (-53)) ^ k)%Q.
Proof. apply Qpower_0_lt. reflexivity. Qed.

Lemma within_comp (k : Z) (A A' a a' : Q) :
  (A == A')%Q -> (a == a')%Q -> within k A a -> within k A' a'.
Proof. unfold within. intros EA Ea. now rewrite EA, Ea. Qed.

Lemma within_0 (A : Q) : within 0 A A.
Proof. unfold within. change ((_ : Q) ^ 0)%Q with 1%Q. split; lra. Qed.

Lemma within_zero (k : Z) (A a : Q) : (A == 0)%Q -> within k A a -> (a == 0)%Q.
Proof.
  unfold within. intros E [H1 H2]. rewrite E in H1, H2.
  rewrite Qmult_0_l in H1, H2. now apply Qle_antisym.
Qed.

Lemma within_weaken (k : Z) (A a : Q) :
  (0 <= A)%Q -> within k A a -> within (k + 1) A a.
Proof.
  unfold within. intros HA [H1 H2].
  rewrite rel_lo_succ, rel_hi_succ.
  pose proof (rel_lo_pos k) as Hl. pose proof (rel_hi_pos k) as Hh.
  destruct rel_lo_bounds as [L0 L1]. pose proof rel_hi_bounds as H0.
  set (lo := ((1 - pow2 (-53)) ^ k)%Q) in *.
  set (hi := ((1 + pow2 (-53)) ^ k)%Q) in *.
  set (l := (1 - pow2 (-53))%Q) in *. set (h := (1 + pow2 (-53))%Q) in *.
  assert (Hlo : (A * lo * l <= A * lo)%Q).
  { rewrite <- (Qmult_1_r (A * lo)) at 2.
    apply Qmult_le_compat_l; [apply Qmult_le_0_compat; lra | exact L1]. }
  assert (Hhi : (A * hi <= A * hi * h)%Q).
  { rewrite <- (Qmult_1_r (A * hi)) at 1.
    apply Qmult_le_compat_l; [apply Qmult_le_0_compat; lra | exact H0]. }
  rewrite !Qmult_assoc. split; lra.
Qed.

Lemma within_add (k : Z) (A B a b : Q) :
  within k A a -> within k B b -> within k (A + B) (a + b).
Proof.
  unfold within. intros [H1 H2] [H3 H4].
  rewrite !Qmult_plus_distr_l. split; lra.
Qed.

Lemma within_scale (k : Z) (A a c : Q) :
  (0 <= c)%Q -> within k A a -> within k (A * c) (a * c).
Proof.
  unfold within. intros Hc [H1 H2]. split.
  - setoid_replace (A * c * (1 - pow2 (-53)) ^ k)%Q
      with (A * (1 - pow2 (-53)) ^ k * c)%Q by ring.
    now apply Qmult_le_compat_r.
  - setoid_replace (A * c * (1 + pow2 (-53)) ^ k)%Q
      with (A * (1 + pow2 (-53)) ^ k * c)%Q by ring.
    now apply Qmult_le_compat_r.
Qed.

Lemma rel_lo_half (k : Z) :
  (0 <= k <= 8)%Z -> (1 # 2 <= (1 - pow2 (-53)) ^ k)%Q.
Proof.
  intros Hk.
  assert (E : (k = 0 \/ k = 1 \/ k = 2 \/ k = 3 \/ k = 4 \/ k = 5 \/ k = 6
               \/ k = 7 \/ k = 8)%Z) by lia.
  repeat (destruct E as [-> | E]; [vm_compute; discriminate |]).
  subst k. vm_compute. discriminate.
Qed.

(** One more rounding of a number that is zero or far above the subnormal
    range. *)
Lemma within_round (k : Z) (A a : Q) :
  (0 <= k <= 8)%Z ->
  (A == 0 \/ pow2 (-1000) <= A)%Q ->
  within k A a -> within (k + 1) A (round64 a).
Proof.
  intros Hk [E | HA] Hw.
  - pose proof (within_zero k A a E Hw) as Ea.
    apply (within_comp (k + 1) 0 A 0 (round64 a));
      [now symmetry | symmetry; now apply round64_0 |].
    unfold within. rewrite !Qmult_0_l. split; apply Qle_refl.
  - assert (HA0 : (0 <= A)%Q).
    { eapply Qle_trans; [| exact HA]. apply Qlt_le_weak, pow2_pos. }
    destruct Hw as [H1 H2].
    assert (Ha : (pow2 (-1022) <= a)%Q).
    { eapply Qle_trans; [| exact H1].
      apply Qle_trans with (pow2 (-1000) * (1 # 2))%Q;
        [vm_compute; discriminate |].
      apply Qle_trans with (A * (1 # 2))%Q.
      - apply Qmult_le_compat_r; [exact HA | discriminate].
      - apply Qmult_le_compat_l; [exact HA0 | now apply rel_lo_half]. }
    destruct (round64_relative a Ha) as [R1 R2].
    unfold within. rewrite rel_lo_succ, rel_hi_succ, !Qmult_assoc. split.
    + eapply Qle_trans; [| exact R1].
      apply Qmult_le_compat_r; [exact H1 | apply Qlt_le_weak, rel_lo_bounds].
    + eapply Qle_trans; [exact R2 |].
      apply Qmult_le_compat_r; [exact H2 |].
      eapply Qle_trans; [| apply rel_hi_bounds]. discriminate.
Qed.

Lemma zero_or_above_add (L A B : Q) :
  (0 <= A)%Q -> (0 <= B)%Q ->
  (A == 0 \/ L <= A)%Q -> (B == 0 \/ L <= B)%Q ->
  (A + B == 0 \/ L <= A + B)%Q.
Proof.
  intros HA HB [EA | LA] [EB | LB].
  - left. rewrite EA, EB. reflexivity.
  - right. lra.
  - right. lra.
  - right. lra.
Qed.

Lemma zero_or_above_weaken (L L' A : Q) :
  (L' <= L)%Q -> (A == 0 \/ L <= A)%Q -> (A == 0 \/ L' <= A)%Q.
Proof. intros H [E | HA]; [now left | right; lra]. Qed.

Lemma length_squared_differences sel (yt yp : list (Box Z)) :
  length yt = length yp -> length (squared_differences sel yt yp) = length yt.
Proof.
  intros H. unfold squared_differences.
  now rewrite length_map, length_combine, <- H, Nat.min_id.
Qed.

Lemma rows_pos {A} (l : list A) :
  l <> [] -> (0 < inject_Z (Z.of_nat (length l)))%Q.
Proof.
  intros H. destruct l; [congruence |]. unfold Qlt. simpl. lia.
Qed.

Lemma rows_bound {A} (l : list A) :
  (length l <= 2 ^ 20)%nat ->
  (inject_Z (Z.of_nat (length l)) <= inject_Z (2 ^ 20))%Q.
Proof.
  intros H. rewrite <- Zle_Qle. apply Nat2Z.inj_le in H.
  now rewrite Nat2Z.inj_pow in H.
Qed.

Section ColumnAverage.

Variables (yt yp : list (Box Z)).
Hypothesis Hlen : length yt = length yp.
Hypothesis Hne : yt <> [].
Hypothesis Hrows : (length yt <= 2 ^ 20)%nat.
Hypothesis Ht : Forall (box_below (2 ^ 15)) yt.
Hypothesis Hp : Forall (box_below (2 ^ 15)) yp.

Local Abbreviation n := (inject_Z (Z.of_nat (length yt))).

(** The exact mean of one column's squared differences. *)
Local Abbreviation column sel :=
  (inject_Z (Zsum (squared_differences sel yt yp)) / n)%Q.

Lemma column_zero_or_above (sel : Box Z -> Z) :
  (forall b, box_below (2 ^ 15) b -> (Z.abs (sel b) <= 2 ^ 15)%Z) ->
  (0 <= column sel)%Q /\ (column sel == 0 \/ pow2 (-20) <= column sel)%Q.
Proof.
  intros Hsel.
  destruct (squared_errors_exact sel yt Hsel yp Ht Hp) as [_ Hall].
  pose proof (Zsum_bounds _ Hall) as [Hs _].
  pose proof (rows_pos yt Hne) as Hn. pose proof (rows_bound yt Hrows) as Hb.
  set (S := Zsum (squared_differences sel yt yp)) in *.
  assert (HS : (0 <= inject_Z S)%Q) by (now rewrite <- (Zle_Qle 0)).
  split.
  - apply Qle_shift_div_l; [exact Hn | now rewrite Qmult_0_l].
  - destruct (Z.eq_dec S 0) as [-> | NE].
    + left. unfold Qdiv. now rewrite Qmult_0_l.
    + right. apply Qle_shift_div_l; [exact Hn |].
      assert (H1 : (1 <= inject_Z S)%Q) by (rewrite <- (Zle_Qle 1); lia).
      apply Qle_trans with (pow2 (-20) * inject_Z (2 ^ 20))%Q.
      * apply Qmult_le_compat_l; [discriminate | exact Hb].
      * eapply Qle_trans; [| exact H1]. vm_compute. discriminate.
Qed.

Lemma column_average (sel : Box Z -> Z) :
  (forall b, box_below (2 ^ 15) b -> (Z.abs (sel b) <= 2 ^ 15)%Z) ->
  within 1 (column sel) (np_average_int (squared_errors sel yt yp)).
Proof.
  intros Hsel.
  destruct (squared_errors_exact sel yt Hsel yp Ht Hp) as [-> Hall].
  pose proof (length_squared_differences sel yt yp Hlen) as Hl.
  unfold np_average_int, np_average, fdiv. rewrite length_map, Hl.
  assert (En : (to_float (Z.of_nat (length yt)) == n)%Q).
  { apply to_float_exact. apply Nat2Z.inj_le in Hrows.
    rewrite Nat2Z.inj_pow in Hrows. change (Z.of_nat 2) with 2%Z in Hrows.
    change (Z.of_nat 20) with 20%Z in Hrows. lia. }
  assert (E : (float_sum (map to_float (squared_differences sel yt yp))
               / to_float (Z.of_nat (length yt)) == column sel)%Q).
  { rewrite En, float_sum_ints; [reflexivity | exact Hall | now rewrite Hl]. }
  apply (within_comp 1 (column sel) _ (round64 (column sel)));
    [reflexivity | symmetry; apply round64_Proper, E |].
  apply (within_round 0); [lia | | apply within_0].
  destruct (column_zero_or_above sel Hsel) as [_ H].
  revert H. apply zero_or_above_weaken. vm_compute. discriminate.
Qed.

End ColumnAverage.

Lemma squared_error_Q (a b : Z) :
  (inject_Z ((a - b) ^ 2) == (inject_Z a - inject_Z b) * (inject_Z a - inject_Z b))%Q.
Proof.
  rewrite Z.pow_2_r, inject_Z_mult. unfold Z.sub.
  rewrite inject_Z_plus, inject_Z_opp. reflexivity.
Qed.

Lemma length_box_coords (bs : list (Box Z)) :
  length (map inject_Z (flat_map box_coords bs)) = (4 * length bs)%nat.
Proof.
  rewrite length_map. induction bs as [| b l IH]; [reflexivity |].
  cbn [flat_map box_coords app length]. rewrite IH. lia.
Qed.

Lemma Qsum_columns (yt : list (Box Z)) : forall yp,
  (Qsum (map (fun tp : Q * Q => (fst tp - snd tp) * (fst tp - snd tp))
             (combine (map inject_Z (flat_map box_coords yt))
                      (map inject_Z (flat_map box_coords yp))))
   == inject_Z (Zsum (squared_differences bx1 yt yp))
      + inject_Z (Zsum (squared_differences by1 yt yp))
      + inject_Z (Zsum (squared_differences bx2 yt yp))
      + inject_Z (Zsum (squared_differences by2 yt yp)))%Q.
Proof.
  induction yt as [| b yt IH]; intros [| p yp];
    try (cbn; unfold Qeq; reflexivity).
  unfold squared_differences in *.
  cbn [flat_map box_coords app map combine Qsum Zsum fold_right fst snd].
  specialize (IH yp). unfold Qsum, Zsum in IH. rewrite IH.
  rewrite !inject_Z_plus, !squared_error_Q. ring.
Qed.

Lemma box_below_sel (B : Z) :
  (forall b, box_below B b -> (Z.abs (bx1 b) <= B)%Z) /\
  (forall b, box_below B b -> (Z.abs (by1 b) <= B)%Z) /\
  (forall b, box_below B b -> (Z.abs (bx2 b) <= B)%Z) /\
  (forall b, box_below B b -> (Z.abs (by2 b) <= B)%Z).
Proof. unfold box_below. repeat split; intros b H; tauto. Qed.

Lemma within_6_bounds (M v : Q) :
  (0 <= M)%Q -> within 6 M v ->
  (M * (1 - pow2 (-50)) <= v /\ v <= M * (1 + pow2 (-50)))%Q.
Proof.
  intros HM [H1 H2]. split.
  - eapply Qle_trans; [| exact H1].
    apply Qmult_le_compat_l; [exact HM | vm_compute; discriminate].
  - eapply Qle_trans; [exact H2 |].
    apply Qmult_le_compat_l; [exact HM | vm_compute; discriminate].
Qed.

(** The score [mean_squared_error] computes for pixel boxes is the mean of
    the squared differences of their coordinates, up to the rounding of six
    float operations: no int64 operation wraps around and the column sums
    are exact, for coordinates of magnitude up to [2^15] in up to [2^20]
    rows. *)
Lemma mean_squared_error_accurate (yt yp : list (Box Z)) (v : Q) :
  mean_squared_error yt yp = Ok v ->
  Forall (box_below (2 ^ 15)) yt -> Forall (box_below (2 ^ 15)) yp ->
  (length yt <= 2 ^ 20)%nat ->
  let m := mse (map inject_Z (flat_map box_coords yt))
               (map inject_Z (flat_map box_coords yp)) in
  (m * (1 - pow2 (-50)) <= v /\ v <= m * (1 + pow2 (-50)))%Q.
Proof.
  intros H Ht Hp Hrows m.
  apply mean_squared_error_inv in H. destruct H as (Hlen & Hne & ->).
  destruct (box_below_sel (2 ^ 15)) as (S1 & S2 & S3 & S4).
  pose proof (column_average yt yp Hlen Hne Hrows Ht Hp) as Hc.
  pose proof (column_zero_or_above yt yp Hlen Hne Hrows Ht Hp) as Hz.
  pose proof (Hc bx1 S1) as C1. pose proof (Hc by1 S2) as C2.
  pose proof (Hc bx2 S3) as C3. pose proof (Hc by2 S4) as C4.
  destruct (Hz bx1 S1) as [P1 Z1]. destruct (Hz by1 S2) as [P2 Z2].
  destruct (Hz bx2 S3) as [P3 Z3]. destruct (Hz by2 S4) as [P4 Z4].
  clear Hc Hz.
  pose proof (rows_pos yt Hne) as Hn.
  set (n := inject_Z (Z.of_nat (length yt))) in *.
  set (A1 := (inject_Z (Zsum (squared_differences bx1 yt yp)) / n)%Q) in *.
  set (A2 := (inject_Z (Zsum (squared_differences by1 yt yp)) / n)%Q) in *.
  set (A3 := (inject_Z (Zsum (squared_differences bx2 yt yp)) / n)%Q) in *.
  set (A4 := (inject_Z (Zsum (squared_differences by2 yt yp)) / n)%Q) in *.
  set (c1 := np_average_int (squared_errors bx1 yt yp)) in *.
  set (c2 := np_average_int (squared_errors by1 yt yp)) in *.
  set (c3 := np_average_int (squared_errors bx2 yt yp)) in *.
  set (c4 := np_average_int (squared_errors by2 yt yp)) in *.
  assert (Em : (m == (A1 + A2 + A3 + A4) * (1 # 4))%Q).
  { unfold m, mse. rewrite Qsum_columns, length_box_coords.
    rewrite Nat2Z.inj_mul, inject_Z_mult. fold n.
    change (inject_Z (Z.of_nat 4)) with (4 # 1)%Q.
    unfold A1, A2, A3, A4. field.
    intros E. rewrite E in Hn. discriminate Hn. }
  assert (Hm : (0 <= m)%Q) by (rewrite Em; lra).
  apply within_6_bounds; [exact Hm |].
  assert (big : forall L A, (L <= pow2 (-20))%Q ->
                  (A == 0 \/ pow2 (-20) <= A)%Q -> (A == 0 \/ L <= A)%Q).
  { intros L A HL. now apply zero_or_above_weaken. }
  assert (small : (pow2 (-1000) <= pow2 (-20))%Q) by (vm_compute; discriminate).
  (* the four additions *)
  assert (W1 : within 2 A1 (round64 (0 + c1))).
  { apply (within_round 1); [lia | now apply big |].
    apply (within_comp 1 A1 A1 c1); [reflexivity | ring | exact C1]. }
  pose proof (zero_or_above_add _ _ _ P1 P2 Z1 Z2) as Z12.
  assert (P12 : (0 <= A1 + A2)%Q) by lra.
  assert (W2 : within 3 (A1 + A2) (round64 (round64 (0 + c1) + c2))).
  { apply (within_round 2); [lia | now apply big |].
    apply within_add; [exact W1 |]. now apply (within_weaken 1). }
  pose proof (zero_or_above_add _ _ _ P12 P3 Z12 Z3) as Z123.
  assert (P123 : (0 <= A1 + A2 + A3)%Q) by lra.
  assert (W3 : within 4 (A1 + A2 + A3)
                 (round64 (round64 (round64 (0 + c1) + c2) + c3))).
  { apply (within_round 3); [lia | now apply big |].
    apply within_add; [exact W2 |].
    apply (within_weaken 2); [exact P3 |]. now apply (within_weaken 1). }
  pose proof (zero_or_above_add _ _ _ P123 P4 Z123 Z4) as Z1234.
  assert (P1234 : (0 <= A1 + A2 + A3 + A4)%Q) by lra.
  assert (W4 : within 5 (A1 + A2 + A3 + A4)
                 (round64 (round64 (round64 (round64 (0 + c1) + c2) + c3) + c4))).
  { apply (within_round 4); [lia | now apply big |].
    apply within_add; [exact W3 |].
    apply (within_weaken 3); [exact P4 |].
    apply (within_weaken 2); [exact P4 |]. now apply (within_weaken 1). }
  (* the division by four *)
  unfold np_average, fdiv, float_sum. cbn [fold_left length].
  apply (within_comp 6 ((A1 + A2 + A3 + A4) * (1 # 4)) m
           (round64 (round64 (round64 (round64 (round64 (0 + c1) + c2) + c3) + c4)
                     * (1 # 4)))).
  - now symmetry.
  - apply round64_Proper. rewrite (to_float_exact 4) by reflexivity.
    unfold Qdiv. change (/ inject_Z 4)%Q with (1 # 4)%Q. reflexivity.
  - apply (within_round 5); [lia | |].
    + destruct Z1234 as [E | H]; [left; rewrite E; reflexivity | right].
      apply Qle_trans with (pow2 (-20) * (1 # 4))%Q; [vm_compute; discriminate |].
      apply Qmult_le_compat_r; [exact H | discriminate].
    + apply within_scale; [discriminate | exact W4].
Qed.

(** * Further properties of the notebook *)

(** ** Denormalization: rounding, range and order *)

Lemma Qtrunc_mono p q : (p <= q)%Q -> (Qtrunc p <= Qtrunc q)%Z.
Proof.
  unfold Qle, Qtrunc. destruct p as [n1 d1], q as [n2 d2]. simpl. intros H.
  rewrite <- (Z.quot_mul_cancel_r n1 (Zpos d1) (Zpos d2)) by lia.
  rewrite <- (Z.quot_mul_cancel_r n2 (Zpos d2) (Zpos d1)) by lia.
  rewrite (Z.mul_comm (Zpos d2) (Zpos d1)).
  apply Z.quot_le_mono; lia.
Qed.

Lemma Qtrunc_inject_Z z : Qtrunc (inject_Z z) = z.
Proof. unfold Qtrunc. simpl. apply Z.quot_1_r. Qed.

Lemma Qtrunc_truncation q : truncation_of q (Qtrunc q).
Proof.
  unfold truncation_of, Qtrunc, Qle, Qlt, Qplus, Qminus, Qopp, inject_Z.
  destruct q as [n d]. simpl.
  pose proof (Z.quot_rem' n (Zpos d)) as Hqr.
  split; intros Hs.
  - assert (Hn : (0 <= n)%Z) by lia.
    pose proof (Z.rem_bound_pos n (Zpos d) Hn ltac:(lia)). nia.
  - assert (Hn : (n <= 0)%Z) by lia.
    pose proof (Z.rem_bound_pos_neg n (Zpos d) ltac:(lia) Hn). nia.
Qed.

(** Inside the range of int64 the cast is the truncation. *)
Lemma astype_int_in_range (q : Q) (lo hi : Z) :
  (int64_min <= lo)%Z -> (hi <= int64_max)%Z ->
  (inject_Z lo <= q)%Q -> (q <= inject_Z hi)%Q ->
  astype_int q = Qtrunc q /\ (lo <= astype_int q <= hi)%Z.
Proof.
  intros Hlo Hhi H1 H2.
  pose proof (Qtrunc_mono _ _ H1) as T1. pose proof (Qtrunc_mono _ _ H2) as T2.
  rewrite Qtrunc_inject_Z in T1, T2.
  unfold astype_int.
  destruct (Z.leb_spec int64_min (Qtrunc q)); [| lia].
  destruct (Z.leb_spec (Qtrunc q) int64_max); [| lia].
  cbn [andb]. split; [reflexivity | lia].
Qed.

Lemma fmul_128_exact (c : Q) :
  representable 53 (-1074) c -> (fmul c 128 == c * 128)%Q.
Proof.
  intros (m & e & Hm & He & E). apply round64_exact.
  exists m, (e + 7)%Z. split; [exact Hm | split; [lia |]].
  rewrite E, pow2_plus. unfold pow2 at 3. simpl. ring.
Qed.

Lemma denormalize_coordinate_truncates (c : Q) :
  scales_to_int64 c ->
  truncation_of (c * 128) (astype_int (fmul c (to_float image_size))).
Proof.
  intros (Hrep & Hlo & Hhi).
  rewrite denormalize_coordinate_pixel.
  rewrite (astype_int_Qeq _ _ (fmul_128_exact c Hrep)).
  destruct (astype_int_in_range (c * 128) int64_min int64_max
              (Z.le_refl _) (Z.le_refl _) Hlo Hhi) as [-> _].
  apply Qtrunc_truncation.
Qed.

(** Every pixel coordinate [denormalize_boxes] returns is the coordinate
    multiplied by 128 and rounded toward zero: never further from zero than
    the product, and less than one pixel away from it, so that a negative
    coordinate is rounded up, not down.  This holds for the floats whose
    product with 128 fits in an int64. *)
Theorem denormalize_boxes_truncates boxes :
  Forall box_scales_to_int64 boxes ->
  Forall2 (coordinatewise (fun c p => truncation_of (c * 128) p))
          boxes (denormalize_boxes boxes image_size).
Proof.
  unfold denormalize_boxes.
  induction 1 as [| b l (H1 & H2 & H3 & H4) _ IH]; simpl; constructor.
  - unfold coordinatewise. simpl.
    split; [| split; [| split]]; now apply denormalize_coordinate_truncates.
  - exact IH.
Qed.

Lemma denormalize_boxes_truncates_witness :
  Forall2 (coordinatewise (fun c p => truncation_of (c * 128) p))
          [mkBox (- (3 # 256)) (1 # 8) (3 # 4) (1 # 2)]%Q
          [mkBox (-1) 16 96 64]%Z.
Proof.
  assert (H : Forall box_scales_to_int64
                [mkBox (- (3 # 256)) (1 # 8) (3 # 4) (1 # 2)]%Q).
  { constructor; [| constructor].
    split; [| split; [| split]].
    - split; [exists (-3)%Z, (-8)%Z | split; discriminate].
      split; [reflexivity | split; [discriminate | reflexivity]].
    - split; [exists 1%Z, (-3)%Z | split; discriminate].
      split; [reflexivity | split; [discriminate | reflexivity]].
    - split; [exists 3%Z, (-2)%Z | split; discriminate].
      split; [reflexivity | split; [discriminate | reflexivity]].
    - split; [exists 1%Z, (-1)%Z | split; discriminate].
      split; [reflexivity | split; [discriminate | reflexivity]]. }
  exact (denormalize_boxes_truncates _ H).
Defined.

(** Boxes whose normalized coordinates all lie in [0,1] denormalize to pixel
    boxes whose coordinates all lie in [0, image_size], for any image size
    from 0 up to [2^53]. *)
Theorem denormalize_boxes_in_frame boxes size :
  (0 <= size < 2 ^ 53)%Z ->
  Forall box_in_unit boxes ->
  Forall (box_within size) (denormalize_boxes boxes size).
Proof.
  intros Hsize Hall. unfold denormalize_boxes. rewrite Forall_map.
  revert Hall. apply Forall_impl. intros b (H1 & H2 & H3 & H4).
  assert (Hs : (0 <= inject_Z size)%Q) by (unfold Qle; simpl; lia).
  assert (Ef : (to_float size == inject_Z size)%Q) by (apply to_float_exact; lia).
  assert (Hc : forall c, in_unit c ->
                 (0 <= astype_int (fmul c (to_float size)) <= size)%Z).
  { intros c [H0 Hle].
    apply (astype_int_in_range _ 0 size).
    - discriminate.
    - unfold int64_max. lia.
    - apply round64_nonneg. rewrite Ef. now apply Qmult_le_0_compat.
    - apply round64_le; [apply representable_int; lia | exact Hs |].
      rewrite Ef. rewrite <- (Qmult_1_l (inject_Z size)) at 2.
      now apply Qmult_le_compat_r. }
  unfold box_within. simpl. auto.
Qed.

Lemma denormalize_boxes_in_frame_witness :
  Forall (box_within 128)
         (denormalize_boxes [mkBox (1 # 4) (1 # 8) (3 # 4) 1]%Q 128).
Proof.
  apply denormalize_boxes_in_frame; [lia |].
  repeat constructor; unfold Qle; simpl; lia.
Defined.





(** ** The dataset assembler: parallel arrays *)

Lemma create_test_dataset_inv env d dir tr images boxes classes :
  create_test_dataset env d dir = (tr, Ok (images, boxes, classes)) ->
  Forall (fun kv => cv2_imread env (os_path_join dir (fst kv)) <> None) d /\
  tr = map (fun kv => EvImread (os_path_join dir (fst kv))) d /\
  images = map (fun kv => preprocessed_image env (os_path_join dir (fst kv))) d /\
  boxes = map (fun kv => map normalized_box (snd kv)) d /\
  classes = map (fun kv => map (fun a => class_id (label a)) (snd kv)) d.
Proof.
  unfold create_test_dataset. intros H.
  destruct (first_unreadable env dir d)
    as [Hall | (done & name & anns & rest & -> & Hdone & Hnone)].
  - rewrite (dataset_loop_ok env dir d [] [] [] Hall) in H.
    injection H as <- <- <- <-. now repeat split.
  - rewrite (dataset_loop_unreadable env dir done name anns rest [] [] []
               Hdone Hnone) in H.
    discriminate H.
Qed.

(** When [create_test_dataset] returns, it has read every image of the
    dictionary once, in dictionary order, and its three arrays are parallel:
    each has one entry per dictionary entry, and entry [i] holds the image
    of the i-th file with one normalized box and one class per record of
    that file, in order. *)
Theorem create_test_dataset_parallel env d dir tr images boxes classes :
  create_test_dataset env d dir = (tr, Ok (images, boxes, classes)) ->
  tr = map (fun kv => EvImread (os_path_join dir (fst kv))) d /\
  length images = length d /\
  length boxes = length d /\
  length classes = length d /\
  (forall i name anns,
     nth_error d i = Some (name, anns) ->
     exists raw,
       cv2_imread env (os_path_join dir name) = Some raw /\
       nth_error images i = Some (scale_pixels (cv2_resize_u8 env raw 128 128)) /\
       nth_error boxes i = Some (map normalized_box anns) /\
       nth_error classes i = Some (map (fun a => class_id (label a)) anns)).
Proof.
  intros H. apply create_test_dataset_inv in H.
  destruct H as (Hall & -> & -> & -> & ->).
  rewrite !length_map. repeat split.
  intros i name anns Hi.
  rewrite Forall_forall in Hall.
  pose proof (Hall _ (nth_error_In _ _ Hi)) as Hread. simpl in Hread.
  destruct (cv2_imread env (os_path_join dir name)) as [raw |] eqn:Hraw;
    [| congruence].
  exists raw. split; [reflexivity |].
  rewrite !nth_error_map, Hi. simpl.
  unfold preprocessed_image. now rewrite Hraw.
Qed.

Lemma create_test_dataset_parallel_witness :
  exists tr images boxes classes,
    create_test_dataset good_env sample_annotations image_dir
    = (tr, Ok (images, boxes, classes)) /\
    length images = 5 /\ length boxes = 5 /\ length classes = 5 /\
    nth_error classes 1 = Some [0%Z].
Proof.
  eexists _, _, _, _.
  pose proof (create_test_dataset_ok good_env sample_annotations
                good_env_readable) as E.
  split; [exact E |].
  destruct (create_test_dataset_parallel _ _ _ _ _ _ _ E)
    as (_ & Hi & Hb & Hc & Hnth).
  split; [exact Hi |]. split; [exact Hb |]. split; [exact Hc |].
  destruct (Hnth 1 "b.png" [sample_ann_void] eq_refl) as (raw & _ & _ & _ & H).
  exact H.
Defined.

Lemma concat_map_map {A B C} (f : B -> C) (g : A -> list B) (l : list A) :
  concat (map (fun a => map f (g a)) l) = map f (flat_map g l).
Proof.
  induction l as [| a l IH]; [reflexivity |].
  cbn [map concat flat_map]. now rewrite map_app, IH.
Qed.

(** The ground truth the metrics compare against, end to end: after
    [create_test_dataset], the concatenated denormalized boxes hold one
    pixel-space row per annotation record of the whole dictionary, in file
    order, and the concatenated classes hold the records' class IDs; the rows
    are the records' own coordinates wherever these are integers of magnitude
    below [2^53]. *)
Theorem ground_truth_of_records env d dir tr images boxes classes :
  create_test_dataset env d dir = (tr, Ok (images, boxes, classes)) ->
  concat (denormalize_each boxes)
  = map pixel_box (map normalized_box (flat_map snd d)) /\
  concat classes = map (fun a => class_id (label a)) (flat_map snd d) /\
  length (concat (denormalize_each boxes)) = length (concat classes) /\
  (Forall ann_exact_integers (flat_map snd d) ->
   Forall2 recovers (flat_map snd d) (concat (denormalize_each boxes))).
Proof.
  intros H. apply create_test_dataset_inv in H.
  destruct H as (_ & _ & _ & -> & ->).
  assert (Hb : concat (denormalize_each
                         (map (fun kv : string * list Annotation =>
                                 map normalized_box (snd kv)) d))
               = denormalize_boxes (map normalized_box (flat_map snd d))
                                   image_size).
  { rewrite concat_denormalize_each.
    now rewrite (concat_map_map normalized_box snd d). }
  assert (Hc : concat (map (fun kv : string * list Annotation =>
                              map (fun a => class_id (label a)) (snd kv)) d)
               = map (fun a => class_id (label a)) (flat_map snd d))
    by apply concat_map_map.
  rewrite Hb, Hc. split; [apply denormalize_boxes_pixel |].
  split; [reflexivity |]. split.
  - unfold denormalize_boxes. now rewrite !length_map.
  - apply denormalize_normalized_all.
Qed.

Lemma ground_truth_of_records_witness :
  exists tr images boxes classes,
    create_test_dataset good_env sample_annotations image_dir
    = (tr, Ok (images, boxes, classes)) /\
    concat (denormalize_each boxes)
    = [mkBox 32 16 96 64; mkBox 0 0 64 64; mkBox 32 16 96 64;
       mkBox 32 16 96 64; mkBox 32 16 96 64]%Z /\
    concat classes = [1; 0; 1; 0; 1]%Z.
Proof.
  eexists _, _, _, _.
  pose proof (create_test_dataset_ok good_env sample_annotations
                good_env_readable) as E.
  split; [exact E |].
  destruct (ground_truth_of_records _ _ _ _ _ _ _ E) as (Hb & Hc & _).
  split; [rewrite Hb; reflexivity | rewrite Hc; reflexivity].
Defined.

(** ** The metrics stage: when a score exists *)

Lemma existsb_nonempty_concat {A} (l : list (list A)) :
  concat l <> [] -> existsb (fun a => negb (is_empty a)) l = true.
Proof.
  induction l as [| a l IH]; [now intros H |].
  cbn [concat existsb]. intros H. destruct a as [| x a]; [| reflexivity].
  cbn [is_empty negb orb]. now apply IH.
Qed.

Lemma no_empty_Forall {A} (l : list (list A)) :
  existsb is_empty l = false -> Forall (fun a => a <> []) l.
Proof.
  induction l as [| a l IH]; [constructor |].
  cbn [existsb]. intros H. apply orb_false_iff in H. destruct H as [Ha Hl].
  constructor; [| now apply IH].
  intros ->. discriminate Ha.
Qed.

Lemma denormalize_each_nonempty (tb : list (list (Box Q))) :
  Forall (fun a => a <> []) (denormalize_each tb) ->
  Forall (fun a => a <> []) tb.
Proof.
  unfold denormalize_each. rewrite Forall_map.
  apply Forall_impl. intros b Hb ->. now apply Hb.
Qed.

Lemma bbox_regression_error_requires test_boxes predicted_boxes v :
  bbox_regression_error (denormalize_each test_boxes)
                        (denormalize_each predicted_boxes) = Ok v ->
  test_boxes <> [] /\
  Forall (fun b => b <> []) test_boxes /\
  predicted_boxes <> [] /\
  length (concat test_boxes) = length (concat predicted_boxes).
Proof.
  unfold bbox_regression_error, np_concatenate_rows, np_concatenate.
  destruct (denormalize_each test_boxes) as [| t0 ts] eqn:Et; [discriminate |].
  destruct (existsb is_empty (t0 :: ts)) eqn:Eempty;
    destruct (existsb (fun a => negb (is_empty a)) (t0 :: ts)) eqn:Enon;
    cbn [andb]; try discriminate;
    (destruct (denormalize_each predicted_boxes) as [| p0 ps] eqn:Ep;
     [discriminate |]);
    intros H; apply mean_squared_error_spec in H;
    destruct H as (Hlen & Hne).
  - (* some array is empty and none is non-empty: nothing to compare *)
    apply existsb_nonempty_concat in Hne. congruence.
  - rewrite <- Et in Eempty, Hlen. rewrite <- Ep in Hlen.
    rewrite !concat_denormalize_each in Hlen. unfold denormalize_boxes in Hlen.
    rewrite !length_map in Hlen.
    split; [intros ->; discriminate Et |].
    split; [now apply denormalize_each_nonempty, no_empty_Forall |].
    split; [intros ->; discriminate Ep | exact Hlen].
  - apply existsb_nonempty_concat in Hne. congruence.
Qed.

(** ** The visualizer: what is drawn, end to end *)














(** ** Failures of the later stages *)

Section LaterStages.

Variable env : Env.
Variables (content : string) (d : AnnDict) (model : Model).

Hypothesis Hopen : open_read env test_annotation_file = Ok content.
Hypothesis Hjson : json_load env content = Ok d.
Hypothesis Hall : Forall (readable env) d.
Hypothesis Hmodel : keras_load_model env model_path = Ok model.

Ltac run_to_predict :=
  unfold script;
  rewrite (bind_ok _ _ _ _ (load_annotations_ok env content _ Hopen Hjson));
  unfold emit at 1; cbn [bind fst snd];
  rewrite (bind_ok _ _ _ _ (create_test_dataset_ok env d Hall));
  unfold emit, lift; rewrite Hmodel; cbn [bind fst snd app];
  rewrite (length_dataset_images env d); unfold trace_until_predict.

Lemma script_predict_fails e :
  predict model (dataset_images env d) = Err e ->
  script env = (trace_until_predict d, Err e).
Proof.
  intros H. run_to_predict. rewrite H. cbn [bind fst snd app].
  rewrite <- ?app_assoc. reflexivity.
Qed.

Variables (pb : list (list (Box Q))) (pc : list (list Q)).
Hypothesis Hpred : predict model (dataset_images env d) = Ok (pb, pc).

Lemma script_metrics_fail e :
  bbox_regression_error (denormalize_each (dataset_boxes d))
                        (denormalize_each pb) = Err e ->
  script env = (trace_until_predict d, Err e).
Proof.
  intros H. run_to_predict. rewrite Hpred. cbn [bind fst snd app].
  rewrite H. cbn [bind fst snd app]. rewrite <- ?app_assoc. reflexivity.
Qed.

Variable v : Q.
Hypothesis Hmse :
  bbox_regression_error (denormalize_each (dataset_boxes d))
                        (denormalize_each pb) = Ok v.

Lemma script_flatten_fails e :
  (np_concatenate (dataset_classes d) = Err e \/
   (exists tflat, np_concatenate (dataset_classes d) = Ok tflat) /\
   np_concatenate (threshold_classes pc) = Err e) ->
  script env = (trace_until_predict d ++ [EvPrint (MsgBboxMse v)], Err e).
Proof.
  intros H. run_to_predict. rewrite Hpred. cbn [bind fst snd app].
  rewrite Hmse. cbn [bind fst snd app].
  destruct H as [H | [[tflat Ht] H]].
  - rewrite H. cbn [bind fst snd app]. rewrite <- ?app_assoc. reflexivity.
  - rewrite Ht. cbn [bind fst snd app]. rewrite H. cbn [bind fst snd app].
    rewrite <- ?app_assoc. reflexivity.
Qed.

Variables tflat pflat : list Z.
Hypothesis Htf : np_concatenate (dataset_classes d) = Ok tflat.
Hypothesis Hpf : np_concatenate (threshold_classes pc) = Ok pflat.

Lemma script_report_fails e :
  classification_report env tflat pflat = Err e ->
  script env =
  (trace_until_predict d ++ [EvPrint (MsgBboxMse v); EvPrint MsgReportHeader],
   Err e).
Proof.
  intros H. run_to_predict. rewrite Hpred. cbn [bind fst snd app].
  rewrite Hmse. cbn [bind fst snd app].
  rewrite Htf, Hpf. cbn [bind fst snd app]. rewrite H. cbn [bind fst snd app].
  rewrite <- ?app_assoc. reflexivity.
Qed.

End LaterStages.

(** ** Every run *)

(** Whatever the environment, the run of the script has one of the nine
    shapes of [run_of]. *)
Lemma script_runs env : run_of env (fst (script env)) (snd (script env)).
Proof.
  destruct (open_read env test_annotation_file) as [content | e] eqn:Hopen.
  2: { rewrite (script_open_fails env e Hopen). now apply RunOpenFails. }
  destruct (json_load env content) as [d | e] eqn:Hjson.
  2: { rewrite (script_json_fails env content e Hopen Hjson).
       now apply (RunJsonFails env content). }
  destruct (first_unreadable env image_dir d)
    as [Hall | (done & name & anns & rest & -> & Hdone & Hnone)].
  2: { rewrite (script_imread_fails env content _ done name anns rest
                  Hopen Hjson eq_refl Hdone Hnone).
       now apply (RunImreadFails env content). }
  destruct (keras_load_model env model_path) as [model | e] eqn:Hmodel.
  2: { rewrite (script_load_model_fails env content d e Hopen Hjson Hall Hmodel).
       now apply (RunModelFails env content). }
  destruct (predict model (dataset_images env d)) as [[pb pc] | e] eqn:Hpred.
  2: { rewrite (script_predict_fails env content d model Hopen Hjson Hall
                  Hmodel e Hpred).
       now apply (RunPredictFails env content d model). }
  destruct (bbox_regression_error (denormalize_each (dataset_boxes d))
                                  (denormalize_each pb)) as [v | e] eqn:Hmse.
  2: { rewrite (script_metrics_fail env content d model Hopen Hjson Hall
                  Hmodel pb pc Hpred e Hmse).
       now apply (RunMetricsFail env content d model pb pc). }
  destruct (np_concatenate (dataset_classes d)) as [tflat | e] eqn:Htf.
  2: { rewrite (script_flatten_fails env content d model Hopen Hjson Hall
                  Hmodel pb pc Hpred v Hmse e (or_introl Htf)).
       apply (RunFlattenFails env content d model pb pc); auto. }
  destruct (np_concatenate (threshold_classes pc)) as [pflat | e] eqn:Hpf.
  2: { assert (Hor : np_concatenate (dataset_classes d) = Err e \/
                     (exists tflat, np_concatenate (dataset_classes d) = Ok tflat) /\
                     np_concatenate (threshold_classes pc) = Err e)
         by (right; split; [now exists tflat | exact Hpf]).
       rewrite (script_flatten_fails env content d model Hopen Hjson Hall
                  Hmodel pb pc Hpred v Hmse e Hor).
       now apply (RunFlattenFails env content d model pb pc). }
  destruct (classification_report env tflat pflat) as [report | e] eqn:Hrep.
  2: { rewrite (script_report_fails env content d model Hopen Hjson Hall
                  Hmodel pb pc Hpred v Hmse tflat pflat Htf Hpf e Hrep).
       now apply (RunReportFails env content d model pb pc v tflat pflat). }
  rewrite (script_until_visualization env content d model pb pc v tflat pflat
             report Hopen Hjson Hall Hmodel Hpred Hmse Htf Hpf Hrep).
  cbv zeta. cbn [fst snd].
  apply (RunDisplays env content d model pb pc v tflat pflat report);
    try assumption.
  apply surjective_pairing.
Qed.

(** An exception raised by [model.predict], by the regression metric or by
    [classification_report] ends the run with that exception.  A failing
    prediction or metric leaves nothing printed after the model was loaded;
    a failing report leaves the regression score and the report header
    printed; in no case is a figure shown. *)
Theorem later_stage_errors_propagate env content d model :
  open_read env test_annotation_file = Ok content ->
  json_load env content = Ok d ->
  Forall (readable env) d ->
  keras_load_model env model_path = Ok model ->
  (forall e,
     predict model (dataset_images env d) = Err e ->
     script env = (trace_until_predict d, Err e)) /\
  (forall pb pc e,
     predict model (dataset_images env d) = Ok (pb, pc) ->
     bbox_regression_error (denormalize_each (dataset_boxes d))
                           (denormalize_each pb) = Err e ->
     script env = (trace_until_predict d, Err e)) /\
  (forall pb pc v tflat pflat e,
     predict model (dataset_images env d) = Ok (pb, pc) ->
     bbox_regression_error (denormalize_each (dataset_boxes d))
                           (denormalize_each pb) = Ok v ->
     np_concatenate (dataset_classes d) = Ok tflat ->
     np_concatenate (threshold_classes pc) = Ok pflat ->
     classification_report env tflat pflat = Err e ->
     script env =
     (trace_until_predict d
        ++ [EvPrint (MsgBboxMse v); EvPrint MsgReportHeader],
      Err e)).
Proof.
  intros Hopen Hjson Hall Hmodel. split; [| split].
  - intros e. now apply (script_predict_fails env content d model).
  - intros pb pc e Hpred.
    now apply (script_metrics_fail env content d model Hopen Hjson Hall Hmodel
                 pb pc Hpred).
  - intros pb pc v tflat pflat e Hpred Hmse Htf Hpf.
    now apply (script_report_fails env content d model Hopen Hjson Hall Hmodel
                 pb pc Hpred v Hmse tflat pflat).
Qed.

Lemma later_stage_errors_propagate_witness :
  script (sample_env (Ok "annotations") sample_annotations "missing.png"
                     (Ok failing_model))
  = (trace_until_predict sample_annotations, Err OSError) /\
  script (sample_env (Ok "annotations") sample_annotations "missing.png"
                     (Ok boxless_model))
  = (trace_until_predict sample_annotations, Err ValueError) /\
  (exists v,
     script failing_report_env
     = (trace_until_predict sample_annotations
          ++ [EvPrint (MsgBboxMse v); EvPrint MsgReportHeader],
        Err ValueError)).
Proof.
  split; [| split].
  - apply (proj1 (later_stage_errors_propagate
                    (sample_env (Ok "annotations") sample_annotations
                                "missing.png" (Ok failing_model))
                    "annotations" sample_annotations failing_model
                    eq_refl eq_refl good_env_readable eq_refl)).
    reflexivity.
  - eapply (proj1 (proj2 (later_stage_errors_propagate
                            (sample_env (Ok "annotations") sample_annotations
                                        "missing.png" (Ok boxless_model))
                            "annotations" sample_annotations boxless_model
                            eq_refl eq_refl good_env_readable eq_refl)));
      reflexivity.
  - eexists.
    eapply (proj2 (proj2 (later_stage_errors_propagate
                            failing_report_env
                            "annotations" sample_annotations sample_model
                            eq_refl eq_refl good_env_readable eq_refl)));
      reflexivity.
Defined.

(** ** Figures come after the metrics *)

Lemma shows_app t t' : shows (t ++ t') = shows t ++ shows t'.
Proof. unfold shows. apply flat_map_app. Qed.

Lemma shows_imreads paths : shows (map EvImread paths) = [].
Proof. induction paths as [| p l IH]; [reflexivity | exact IH]. Qed.

Lemma shows_trace_until_predict d : shows (trace_until_predict d) = [].
Proof.
  unfold trace_until_predict. now rewrite !shows_app, shows_imreads.
Qed.

Lemma shows_trace_before_visualization d v report :
  shows (trace_before_visualization d v report) = [].
Proof.
  unfold trace_before_visualization. now rewrite !shows_app, shows_imreads.
Qed.

Lemma in_shows fig tr : In (EvShow fig) tr -> In fig (shows tr).
Proof.
  unfold shows. intros H. apply in_flat_map. exists (EvShow fig).
  split; [exact H | now left].
Qed.

Lemma no_show_split tr pre fig post :
  shows tr = [] -> tr <> pre ++ EvShow fig :: post.
Proof.
  intros Hs ->. rewrite shows_app in Hs. cbn in Hs.
  now destruct (shows pre).
Qed.

Lemma prefix_before_first {A} (l1 : list A) : forall l2 pre x post,
  l1 ++ l2 = pre ++ x :: post ->
  ~ In x l1 ->
  exists pre', pre = l1 ++ pre' /\ l2 = pre' ++ x :: post.
Proof.
  induction l1 as [| a l1 IH]; intros l2 pre x post H Hnot.
  - exists pre. now split.
  - destruct pre as [| b pre].
    + injection H as <- _. exfalso. apply Hnot. now left.
    + injection H as <- H. destruct (IH l2 pre x post H) as (pre' & -> & ->).
      * intros Hin. apply Hnot. now right.
      * exists pre'. now split.
Qed.

(** On every run, whatever the environment and the outcome, a figure is
    shown only after both metrics were printed: the events before any
    [plt.show()] include the print of the regression score and the print of
    the classification report. *)
Theorem figures_only_after_metrics env tr r pre fig post :
  script env = (tr, r) ->
  tr = pre ++ EvShow fig :: post ->
  exists v report,
    In (EvPrint (MsgBboxMse v)) pre /\
    In (EvPrint (MsgReport report)) pre.
Proof.
  intros Hs Htr. pose proof (script_runs env) as Hrun.
  rewrite Hs in Hrun. cbn [fst snd] in Hrun.
  inversion Hrun; subst;
    try (exfalso;
         match goal with
         | H : _ = pre ++ EvShow fig :: post |- _ =>
             revert H; apply no_show_split;
             rewrite ?shows_app, ?shows_imreads, ?shows_trace_until_predict;
             reflexivity
         end).
  match goal with
  | H : _ ++ _ = pre ++ EvShow fig :: post |- _ =>
      apply prefix_before_first in H;
      [destruct H as (pre' & -> & _) |]
  end.
  - exists v, report.
    split; apply in_or_app; left; unfold trace_before_visualization;
      find_event; simpl; tauto.
  - intros Hin. apply in_shows in Hin.
    now rewrite shows_trace_before_visualization in Hin.
Qed.

Lemma figures_only_after_metrics_witness :
  exists tr g pre fig post,
    script good_env = (tr, Ok g) /\
    tr = pre ++ EvShow fig :: post /\
    exists v report,
      In (EvPrint (MsgBboxMse v)) pre /\
      In (EvPrint (MsgReport report)) pre.
Proof.
  eexists _, _, _, _, _.
  match goal with |- ?P /\ _ => assert (E : P) end.
  { eapply (script_succeeds good_env "annotations" sample_annotations
                            sample_model);
      try reflexivity; exact good_env_readable. }
  split; [exact E |].
  match goal with |- ?P /\ _ => assert (Hsplit : P) by reflexivity end.
  split; [exact Hsplit |].
  exact (figures_only_after_metrics good_env _ _ _ _ _ E Hsplit).
Defined.

(** ** What a complete run requires *)

Lemma getitem_ok_lt {A} (arr : list A) i a : getitem arr i = Ok a -> i < length arr.
Proof.
  unfold getitem. destruct (nth_error arr i) eqn:E; [| discriminate].
  intros _. apply nth_error_Some. congruence.
Qed.

Lemma for_each_ok_inv {A} (xs : list A) (body : A -> M unit) : forall tr u,
  for_each xs body = (tr, Ok u) ->
  forall x, In x xs -> exists t, body x = (t, Ok tt).
Proof.
  induction xs as [| y xs IH]; intros tr u H x Hin; [destruct Hin |].
  cbn [for_each] in H. apply bind_inv in H.
  destruct H as [(e & _ & H) | (t & a & t' & Hy & Hrest & _)];
    [discriminate H |].
  destruct Hin as [<- | Hin].
  - destruct a. now exists t.
  - now apply (IH t' u Hrest).
Qed.

Lemma visualize_sample_ok_inv env imgs tbs pbs tcs pcs i t :
  visualize_sample env imgs tbs pbs tcs pcs i = (t, Ok tt) ->
  i < length imgs /\ i < length tbs /\ i < length pbs /\
  i < length tcs /\ i < length pcs.
Proof.
  unfold visualize_sample. intros H.
  bind_ok_inv H image Hi. bind_ok_inv H tb Htb. bind_ok_inv H pb Hpb.
  bind_ok_inv H tc Htc. bind_ok_inv H pc Hpc.
  unfold lift in *.
  injection Hi as _ Hi. injection Htb as _ Htb. injection Hpb as _ Hpb.
  injection Htc as _ Htc. injection Hpc as _ Hpc.
  repeat split; eapply getitem_ok_lt; eassumption.
Qed.

(** The script runs to its end only on a dataset of at least five images,
    each with at least one annotation record, for which the model returns
    at least five rows of boxes and of scores and, in total, as many boxes
    as there are records. *)
Theorem complete_run_requires env tr g :
  script env = (tr, Ok g) ->
  5 <= length (g_test_annotations g) /\
  Forall (fun kv => snd kv <> []) (g_test_annotations g) /\
  5 <= length (g_predicted_boxes g) /\
  5 <= length (g_predicted_classes g) /\
  length (flat_map snd (g_test_annotations g))
  = length (concat (g_predicted_boxes g)).
Proof.
  intros Hs. pose proof (script_runs env) as Hrun.
  rewrite Hs in Hrun. cbn [fst snd] in Hrun.
  inversion Hrun as [| | | | | | | |
                     content d model pb pc v tflat pflat report t r
                     Hopen Hjson Hall Hmodel Hpred Hmse Htf Hpf Hrep Hvis];
    subst.
  apply bind_inv in Hvis.
  destruct Hvis as [(e & _ & Hvis) | (t1 & u & t2 & Hstage & Hret & _)];
    [discriminate Hvis |].
  unfold ret in Hret. injection Hret as _ <-. cbn.
  destruct (for_each_ok_inv _ _ _ _ Hstage 4) as [t4 H4];
    [simpl; tauto |].
  apply visualize_sample_ok_inv in H4.
  destruct H4 as (Hi & _ & Hb & _ & Hc).
  rewrite length_dataset_images in Hi.
  rewrite length_denormalize_each in Hb.
  rewrite length_threshold_classes in Hc.
  apply bbox_regression_error_requires in Hmse.
  destruct Hmse as (_ & Hne & _ & Hlen).
  split; [lia |]. split.
  - unfold dataset_boxes in Hne. rewrite Forall_map in Hne.
    revert Hne. apply Forall_impl. intros kv Hkv Hnil. apply Hkv.
    now rewrite Hnil.
  - split; [lia |]. split; [lia |].
    rewrite <- Hlen. unfold dataset_boxes.
    rewrite (concat_map_map normalized_box snd d). now rewrite length_map.
Qed.

Lemma complete_run_requires_witness :
  exists tr g,
    script good_env = (tr, Ok g) /\
    5 <= length (g_test_annotations g) /\
    length (flat_map snd (g_test_annotations g))
    = length (concat (g_predicted_boxes g)).
Proof.
  eexists _, _.
  match goal with |- ?P /\ _ => assert (E : P) end.
  { eapply (script_succeeds good_env "annotations" sample_annotations
                            sample_model);
      try reflexivity; exact good_env_readable. }
  split; [exact E |].
  destruct (complete_run_requires good_env _ _ E) as (H5 & _ & _ & _ & Hlen).
  split; [exact H5 | exact Hlen].
Defined.

(** ** What the trace says about the dictionary *)

Lemma trace_all_bind {A B} (P : Event -> Prop) (m : M A) (f : A -> M B) :
  Forall P (fst m) -> (forall a, Forall P (fst (f a))) ->
  Forall P (fst (bind m f)).
Proof.
  destruct m as [t [a | e]]; simpl; intros Hm Hf; [| exact Hm].
  specialize (Hf a). destruct (f a) as [t' r]. simpl in *.
  apply Forall_app. now split.
Qed.

Lemma trace_all_for_each {A} (P : Event -> Prop) (xs : list A)
      (body : A -> M unit) :
  (forall x, Forall P (fst (body x))) -> Forall P (fst (for_each xs body)).
Proof.
  intros H. induction xs as [| x xs IH]; [constructor |].
  cbn [for_each]. apply trace_all_bind; [apply H | intros _; exact IH].
Qed.

Lemma visualization_stage_only_shows env imgs tbs pbs tcs pcs :
  Forall (fun e => exists fig, e = EvShow fig)
         (fst (visualization_stage env imgs tbs pbs tcs pcs)).
Proof.
  unfold visualization_stage. apply trace_all_for_each. intros i.
  unfold visualize_sample.
  repeat (apply trace_all_bind; [constructor | intros ?]).
  constructor; [eexists; reflexivity | constructor].
Qed.

Lemma about_dict_imreads d (l : AnnDict) :
  incl l d -> Forall (about_dict d) (map EvImread (image_paths l)).
Proof.
  intros Hincl. unfold image_paths. rewrite map_map, Forall_map.
  apply Forall_forall. intros kv Hin. simpl. exists kv.
  split; [now apply Hincl | reflexivity].
Qed.

Lemma about_dict_until_predict d : Forall (about_dict d) (trace_until_predict d).
Proof.
  unfold trace_until_predict.
  repeat (apply Forall_app; split);
    try (apply about_dict_imreads, incl_refl);
    repeat constructor.
Qed.

Ltac same_dictionary :=
  try match goal with
      | H : open_read ?env _ = _, H' : open_read ?env _ = _ |- _ =>
          rewrite H in H'; first [discriminate H' | injection H' as H'; subst]
      end;
  try match goal with
      | H : json_load ?env _ = _, H' : json_load ?env _ = _ |- _ =>
          rewrite H in H'; first [discriminate H' | injection H' as H'; subst]
      end.

Lemma script_about_dict env tr r content d :
  script env = (tr, r) ->
  open_read env test_annotation_file = Ok content ->
  json_load env content = Ok d ->
  Forall (about_dict d) tr.
Proof.
  intros Hs Hopen Hjson. pose proof (script_runs env) as Hrun.
  rewrite Hs in Hrun. cbn [fst snd] in Hrun.
  inversion Hrun; subst; same_dictionary.
  - repeat (apply Forall_app; split); repeat constructor.
    apply about_dict_imreads. intros kv Hin.
    apply in_app_or in Hin. apply in_or_app.
    destruct Hin as [Hin | [<- | []]]; [now left | right; now left].
  - repeat (apply Forall_app; split);
      try (apply about_dict_imreads, incl_refl); repeat constructor.
  - apply about_dict_until_predict.
  - apply about_dict_until_predict.
  - apply Forall_app. split; [apply about_dict_until_predict |].
    repeat constructor.
  - apply Forall_app. split; [apply about_dict_until_predict |].
    repeat constructor.
  - apply Forall_app. split.
    + unfold trace_before_visualization.
      repeat (apply Forall_app; split);
        try (apply about_dict_imreads, incl_refl); repeat constructor.
    + match goal with
      | H : bind ?m ?f = (?t, _) |- Forall _ ?t =>
          assert (Ht : Forall (fun e => exists fig, e = EvShow fig) t)
      end.
      { match goal with
        | H : bind ?m ?f = (?t, _) |- _ =>
            pose proof (trace_all_bind (fun e => exists fig, e = EvShow fig)
                          m f) as Hb;
            rewrite H in Hb; apply Hb;
            [apply visualization_stage_only_shows | intros; constructor]
        end. }
      revert Ht. apply Forall_impl. intros e [fig ->]. exact I.
Qed.

(** The counts a run prints are counts of images: the number printed as
    "Loaded N test annotations", the number printed as "Test dataset
    prepared with N images" and the number of images given to
    [model.predict] are all the number of entries of the annotation
    dictionary, not the number of annotation records. *)
Theorem printed_counts_are_image_counts env tr r content d n :
  script env = (tr, r) ->
  open_read env test_annotation_file = Ok content ->
  json_load env content = Ok d ->
  In (EvPrint (MsgLoadedAnnotations n)) tr \/
  In (EvPrint (MsgDatasetPrepared n)) tr \/
  In (EvPredict n) tr ->
  n = length d.
Proof.
  intros Hs Hopen Hjson Hin.
  pose proof (script_about_dict env tr r content d Hs Hopen Hjson) as Hall.
  rewrite Forall_forall in Hall.
  destruct Hin as [Hin | [Hin | Hin]]; exact (Hall _ Hin).
Qed.

Lemma printed_counts_are_image_counts_witness :
  exists tr g,
    script good_env = (tr, Ok g) /\
    In (EvPrint (MsgLoadedAnnotations 5)) tr /\
    length (flat_map snd sample_annotations) = 5 /\
    5 = length sample_annotations.
Proof.
  eexists _, _.
  match goal with |- ?P /\ _ => assert (E : P) end.
  { eapply (script_succeeds good_env "annotations" sample_annotations
                            sample_model);
      try reflexivity; exact good_env_readable. }
  split; [exact E |].
  match goal with
  | |- ?P /\ _ => assert (Hin : P) by (simpl; tauto)
  end.
  split; [exact Hin |]. split; [reflexivity |].
  exact (printed_counts_are_image_counts good_env _ _ "annotations"
           sample_annotations 5 E eq_refl eq_refl (or_introl Hin)).
Defined.

(** Every image the script reads is the file of a key of the annotation
    dictionary it loaded, resolved against the image directory. *)
Theorem image_reads_are_dictionary_files env tr r p :
  script env = (tr, r) ->
  In (EvImread p) tr ->
  exists content d name anns,
    open_read env test_annotation_file = Ok content /\
    json_load env content = Ok d /\
    In (name, anns) d /\
    p = os_path_join image_dir name.
Proof.
  intros Hs Hin.
  assert (Hd : exists content d,
             open_read env test_annotation_file = Ok content /\
             json_load env content = Ok d).
  { pose proof (script_runs env) as Hrun.
    rewrite Hs in Hrun. cbn [fst snd] in Hrun.
    inversion Hrun; subst; try (now eexists _, _; split; eassumption);
      destruct Hin as [Hin | []]; discriminate Hin. }
  destruct Hd as (content & d & Hopen & Hjson).
  pose proof (script_about_dict env tr r content d Hs Hopen Hjson) as Hall.
  rewrite Forall_forall in Hall. specialize (Hall _ Hin).
  destruct Hall as ([name anns] & Hkv & ->).
  now exists content, d, name, anns.
Qed.

Lemma image_reads_are_dictionary_files_witness :
  exists tr g,
    script good_env = (tr, Ok g) /\
    In (EvImread "../data/images/b.png") tr /\
    exists content d name anns,
      open_read good_env test_annotation_file = Ok content /\
      json_load good_env content = Ok d /\
      In (name, anns) d /\
      "../data/images/b.png" = os_path_join image_dir name.
Proof.
  eexists _, _.
  match goal with |- ?P /\ _ => assert (E : P) end.
  { eapply (script_succeeds good_env "annotations" sample_annotations
                            sample_model);
      try reflexivity; exact good_env_readable. }
  split; [exact E |].
  match goal with
  | |- ?P /\ _ => assert (Hin : P) by (simpl; tauto)
  end.
  split; [exact Hin |].
  exact (image_reads_are_dictionary_files good_env _ _ _ E Hin).
Defined.

(** ** What a run prints (C4, C5) *)

Ltac in_cases H :=
  repeat match type of H with
         | In _ (_ ++ _) => apply in_app_or in H; destruct H as [H | H]
         | In _ (map _ _) => apply in_map_iff in H; destruct H as (? & H & _)
         | In _ (_ :: _) => destruct H as [H | H]
         | In _ [] => destruct H
         end;
  try discriminate H.

Lemma visualization_trace_only_shows env imgs tbs pbs tcs pcs (g : Globals) t r e :
  (visualization_stage env imgs tbs pbs tcs pcs ;;; ret g) = (t, r) ->
  In e t -> exists fig, e = EvShow fig.
Proof.
  intros H Hin.
  assert (F : Forall (fun e => exists fig, e = EvShow fig)
                (fst (visualization_stage env imgs tbs pbs tcs pcs ;;; ret g))).
  { apply trace_all_bind; [apply visualization_stage_only_shows |].
    intros _. constructor. }
  rewrite H in F. cbn [fst] in F. rewrite Forall_forall in F. now apply F.
Qed.

Lemma concat_dataset_boxes (d : AnnDict) :
  concat (dataset_boxes d) = map normalized_box (flat_map snd d).
Proof. unfold dataset_boxes. apply concat_map_map. Qed.

(** A score is printed only by a run that has loaded the dictionary and the
    model and obtained predictions, and it is the mean squared error of the
    pixel-space rows of the records against those of the predictions. *)
Lemma script_printed_score env tr r v :
  script env = (tr, r) ->
  In (EvPrint (MsgBboxMse v)) tr ->
  exists content d model pb pc,
    open_read env test_annotation_file = Ok content /\
    json_load env content = Ok d /\
    keras_load_model env model_path = Ok model /\
    predict model (dataset_images env d) = Ok (pb, pc) /\
    mean_squared_error
      (map pixel_box (map normalized_box (flat_map snd d)))
      (map pixel_box (concat pb)) = Ok v.
Proof.
  intros Hs Hin. pose proof (script_runs env) as Hrun.
  rewrite Hs in Hrun. cbn [fst snd] in Hrun.
  inversion Hrun; subst;
    unfold trace_until_predict, trace_before_visualization in Hin;
    in_cases Hin;
    try (match goal with
         | Hv : (_ ;;; ret _) = (_, _) |- _ =>
             destruct (visualization_trace_only_shows _ _ _ _ _ _ _ _ _ _
                         Hv Hin) as [fig Hfig];
             discriminate Hfig
         end);
    injection Hin as <-;
    match goal with
    | Hm : bbox_regression_error _ _ = Ok _ |- _ =>
        apply bbox_regression_error_inv in Hm;
        rewrite concat_dataset_boxes in Hm
    end;
    eexists _, _, _, _, _; repeat split; eassumption.
Qed.

(** A classification report is printed only by a run that has obtained
    predictions, and it is the report of the ground-truth classes of all
    records against the thresholded scores of all predictions. *)
Lemma script_printed_report env tr r report :
  script env = (tr, r) ->
  In (EvPrint (MsgReport report)) tr ->
  exists content d model pb pc,
    open_read env test_annotation_file = Ok content /\
    json_load env content = Ok d /\
    keras_load_model env model_path = Ok model /\
    predict model (dataset_images env d) = Ok (pb, pc) /\
    classification_report env (concat (dataset_classes d))
                          (concat (threshold_classes pc)) = Ok report.
Proof.
  intros Hs Hin. pose proof (script_runs env) as Hrun.
  rewrite Hs in Hrun. cbn [fst snd] in Hrun.
  inversion Hrun; subst;
    unfold trace_until_predict, trace_before_visualization in Hin;
    in_cases Hin;
    try (match goal with
         | Hv : (_ ;;; ret _) = (_, _) |- _ =>
             destruct (visualization_trace_only_shows _ _ _ _ _ _ _ _ _ _
                         Hv Hin) as [fig Hfig];
             discriminate Hfig
         end);
    injection Hin as <-;
    repeat match goal with
           | Hc : np_concatenate _ = Ok _ |- _ =>
               apply np_concatenate_ok in Hc; subst
           end;
    eexists _, _, _, _, _; repeat split; eassumption.
Qed.

(** The score the metrics stage computes is printed, whatever happens
    afterwards. *)
Lemma script_prints_score env content d model pb pc v :
  open_read env test_annotation_file = Ok content ->
  json_load env content = Ok d ->
  Forall (readable env) d ->
  keras_load_model env model_path = Ok model ->
  predict model (dataset_images env d) = Ok (pb, pc) ->
  bbox_regression_error (denormalize_each (dataset_boxes d))
                        (denormalize_each pb) = Ok v ->
  In (EvPrint (MsgBboxMse v)) (fst (script env)).
Proof.
  intros Hopen Hjson Hall Hmodel Hpred Hmse.
  destruct (np_concatenate (dataset_classes d)) as [tflat | e] eqn:Htf.
  2: { rewrite (script_flatten_fails env content d model Hopen Hjson Hall
                  Hmodel pb pc Hpred v Hmse e (or_introl Htf)).
       cbn [fst]. apply in_or_app. right. now left. }
  destruct (np_concatenate (threshold_classes pc)) as [pflat | e] eqn:Hpf.
  2: { assert (Hor : np_concatenate (dataset_classes d) = Err e \/
                     (exists tflat, np_concatenate (dataset_classes d) = Ok tflat) /\
                     np_concatenate (threshold_classes pc) = Err e).
       { right. split; [now exists tflat | exact Hpf]. }
       rewrite (script_flatten_fails env content d model Hopen Hjson Hall
                  Hmodel pb pc Hpred v Hmse e Hor).
       cbn [fst]. apply in_or_app. right. now left. }
  destruct (classification_report env tflat pflat) as [report | e] eqn:Hrep.
  2: { rewrite (script_report_fails env content d model Hopen Hjson Hall
                  Hmodel pb pc Hpred v Hmse tflat pflat Htf Hpf e Hrep).
       cbn [fst]. apply in_or_app. right. now left. }
  rewrite (script_until_visualization env content d model pb pc v tflat pflat
             report Hopen Hjson Hall Hmodel Hpred Hmse Htf Hpf Hrep).
  cbv zeta. cbn [fst]. unfold trace_before_visualization.
  apply in_or_app. left. apply in_or_app. right. apply in_or_app. right.
  cbn [In]. do 4 right. now left.
Qed.

(** The report computed from the flattened classes is printed, whatever
    happens afterwards. *)
Lemma script_prints_report env content d model pb pc v tflat pflat report :
  open_read env test_annotation_file = Ok content ->
  json_load env content = Ok d ->
  Forall (readable env) d ->
  keras_load_model env model_path = Ok model ->
  predict model (dataset_images env d) = Ok (pb, pc) ->
  bbox_regression_error (denormalize_each (dataset_boxes d))
                        (denormalize_each pb) = Ok v ->
  np_concatenate (dataset_classes d) = Ok tflat ->
  np_concatenate (threshold_classes pc) = Ok pflat ->
  classification_report env tflat pflat = Ok report ->
  In (EvPrint (MsgReport report)) (fst (script env)).
Proof.
  intros Hopen Hjson Hall Hmodel Hpred Hmse Htf Hpf Hrep.
  rewrite (script_until_visualization env content d model pb pc v tflat pflat
             report Hopen Hjson Hall Hmodel Hpred Hmse Htf Hpf Hrep).
  cbv zeta. cbn [fst]. unfold trace_before_visualization.
  apply in_or_app. left. apply in_or_app. right. apply in_or_app. right.
  cbn [In]. do 6 right. now left.
Qed.

(** C4: the score a run prints is the mean squared error of the pixel-space
    coordinates, that is of the normalized coordinates multiplied by 128 and
    cast to integers, of all ground-truth boxes against all predicted boxes;
    a run whose metrics stage computes a score prints it, whether or not a
    later stage fails.  The value computed is the mean of the squared
    differences of these coordinates up to the rounding of the float
    operations, a relative error below [2^-50] for coordinates of magnitude
    up to [2^15] in up to [2^20] rows; it is not the error over the
    normalized coordinates. *)
Theorem bbox_mse_over_pixel_coordinates :
  (forall env tr r v,
     script env = (tr, r) ->
     In (EvPrint (MsgBboxMse v)) tr ->
     exists content d model pb pc,
       open_read env test_annotation_file = Ok content /\
       json_load env content = Ok d /\
       keras_load_model env model_path = Ok model /\
       predict model (dataset_images env d) = Ok (pb, pc) /\
       mean_squared_error
         (map pixel_box (map normalized_box (flat_map snd d)))
         (map pixel_box (concat pb)) = Ok v) /\
  (forall env content d model pb pc v,
     open_read env test_annotation_file = Ok content ->
     json_load env content = Ok d ->
     Forall (readable env) d ->
     keras_load_model env model_path = Ok model ->
     predict model (dataset_images env d) = Ok (pb, pc) ->
     bbox_regression_error (denormalize_each (dataset_boxes d))
                           (denormalize_each pb) = Ok v ->
     In (EvPrint (MsgBboxMse v)) (fst (script env))) /\
  (forall y_true y_pred v,
     mean_squared_error y_true y_pred = Ok v ->
     Forall (box_below (2 ^ 15)) y_true ->
     Forall (box_below (2 ^ 15)) y_pred ->
     (length y_true <= 2 ^ 20)%nat ->
     let m := mse (map inject_Z (flat_map box_coords y_true))
                  (map inject_Z (flat_map box_coords y_pred)) in
     (m * (1 - pow2 (-50)) <= v /\ v <= m * (1 + pow2 (-50)))%Q) /\
  (exists v,
     mean_squared_error (map pixel_box [mkBox 0 0 (1 # 2) (1 # 2)]%Q)
                        (map pixel_box [mkBox (1 # 4) (1 # 8) (3 # 4) (1 # 2)])
     = Ok v /\
     (v == 576)%Q /\
     (mse (flat_map box_coords [mkBox 0 0 (1 # 2) (1 # 2)]%Q)
          (flat_map box_coords [mkBox (1 # 4) (1 # 8) (3 # 4) (1 # 2)])
      == 9 # 256)%Q).
Proof.
  split; [| split; [| split]].
  - exact script_printed_score.
  - exact script_prints_score.
  - exact mean_squared_error_accurate.
  - eexists. split; [reflexivity |]. split; vm_compute; reflexivity.
Qed.

Lemma bbox_mse_over_pixel_coordinates_witness :
  exists tr v,
    script small_env = (tr, Err IndexError) /\
    In (EvPrint (MsgBboxMse v)) tr /\
    mean_squared_error [mkBox 32 16 96 64; mkBox 0 0 64 64]%Z
                       [mkBox 32 16 96 64; mkBox 32 16 96 64]%Z = Ok v /\
    (mse (map inject_Z [32; 16; 96; 64; 0; 0; 64; 64]%Z)
         (map inject_Z [32; 16; 96; 64; 32; 16; 96; 64]%Z) == 288)%Q /\
    (mse (map inject_Z [32; 16; 96; 64; 0; 0; 64; 64]%Z)
         (map inject_Z [32; 16; 96; 64; 32; 16; 96; 64]%Z)
     * (1 - pow2 (-50)) <= v)%Q /\
    (v <= mse (map inject_Z [32; 16; 96; 64; 0; 0; 64; 64]%Z)
              (map inject_Z [32; 16; 96; 64; 32; 16; 96; 64]%Z)
          * (1 + pow2 (-50)))%Q.
Proof.
  eexists _, _.
  match goal with |- ?P /\ _ => assert (E : P) end.
  { eapply (script_short small_env "annotations" (firstn 2 sample_annotations)
                         sample_model);
      try reflexivity; [exact small_env_readable | simpl; lia]. }
  split; [exact E |].
  match goal with |- ?P /\ _ => assert (Hin : P) end.
  { pose proof (proj1 (proj2 bbox_mse_over_pixel_coordinates)
                  small_env "annotations" (firstn 2 sample_annotations)
                  sample_model _ _ _ eq_refl eq_refl small_env_readable
                  eq_refl eq_refl eq_refl) as Hlive.
    rewrite E in Hlive. exact Hlive. }
  split; [exact Hin |].
  destruct (proj1 bbox_mse_over_pixel_coordinates small_env _ _ _ E Hin)
    as (content & d & model & pb & pc & Hopen & Hjson & Hmodel & Hpred & Hmse).
  injection Hopen as <-. injection Hjson as <-. injection Hmodel as <-.
  injection Hpred as <- _.
  match goal with |- ?P /\ _ => assert (Hv : P) by exact Hmse end.
  split; [exact Hv |]. split; [vm_compute; reflexivity |].
  apply (proj1 (proj2 (proj2 bbox_mse_over_pixel_coordinates)) _ _ _ Hv).
  - repeat constructor; vm_compute; discriminate.
  - repeat constructor; vm_compute; discriminate.
  - apply (Nat.le_trans _ (2 ^ 1)); [apply Nat.le_refl |].
    apply Nat.pow_le_mono_r; lia.
Defined.

(** C5: the binary class of a sample is 1 exactly when its score is strictly
    above 0.5 and 0 otherwise, a score equal to 0.5 giving 0; the
    classification report a run prints is computed from these binary
    classes, flattened, against the ground-truth classes of all records, and
    a run that computes the report prints it, whether or not the display
    loop fails afterwards. *)
Theorem predicted_class_threshold :
  (forall predicted_classes i j row s,
     nth_error predicted_classes i = Some row ->
     nth_error row j = Some s ->
     exists brow b,
       nth_error (threshold_classes predicted_classes) i = Some brow /\
       nth_error brow j = Some b /\
       (b = 1%Z <-> (1 # 2 < s)%Q) /\
       (b = 0%Z <-> (s <= 1 # 2)%Q) /\
       ((s == 1 # 2)%Q -> b = 0%Z)) /\
  (forall env tr r report,
     script env = (tr, r) ->
     In (EvPrint (MsgReport report)) tr ->
     exists content d model pb pc,
       open_read env test_annotation_file = Ok content /\
       json_load env content = Ok d /\
       keras_load_model env model_path = Ok model /\
       predict model (dataset_images env d) = Ok (pb, pc) /\
       classification_report env (concat (dataset_classes d))
                             (concat (threshold_classes pc)) = Ok report) /\
  (forall env content d model pb pc v tflat pflat report,
     open_read env test_annotation_file = Ok content ->
     json_load env content = Ok d ->
     Forall (readable env) d ->
     keras_load_model env model_path = Ok model ->
     predict model (dataset_images env d) = Ok (pb, pc) ->
     bbox_regression_error (denormalize_each (dataset_boxes d))
                           (denormalize_each pb) = Ok v ->
     np_concatenate (dataset_classes d) = Ok tflat ->
     np_concatenate (threshold_classes pc) = Ok pflat ->
     classification_report env tflat pflat = Ok report ->
     In (EvPrint (MsgReport report)) (fst (script env))).
Proof.
  split; [| split].
  - intros pcs i j row s Hrow Hs.
    exists (map (fun s : Q => if Qgtb s (1 # 2) then 1%Z else 0%Z) row),
           (if Qgtb s (1 # 2) then 1%Z else 0%Z).
    unfold threshold_classes.
    split; [now rewrite nth_error_map, Hrow |].
    split; [now rewrite nth_error_map, Hs |].
    destruct (threshold_class_spec s) as [H1 H0].
    split; [exact H1 | split; [exact H0 |]].
    intros Heq. apply H0. rewrite Heq. apply Qle_refl.
  - exact script_printed_report.
  - exact script_prints_report.
Qed.

Lemma predicted_class_threshold_witness :
  (exists brow b,
     nth_error (threshold_classes [[3 # 4; 1 # 2; 1 # 4]]) 0 = Some brow /\
     nth_error brow 1 = Some b /\
     brow = [1; 0; 0]%Z /\ b = 0%Z) /\
  (exists tr report,
     script small_env = (tr, Err IndexError) /\
     In (EvPrint (MsgReport report)) tr /\
     classification_report small_env [1; 0]%Z
       (concat (threshold_classes [[3 # 4]; [3 # 4]])) = Ok report).
Proof.
  split.
  - destruct (proj1 predicted_class_threshold [[3 # 4; 1 # 2; 1 # 4]] 0 1
                [3 # 4; 1 # 2; 1 # 4] (1 # 2) eq_refl eq_refl)
      as (brow & b & Hrow & Hb & _ & _ & Hhalf).
    exists brow, b. split; [exact Hrow |]. split; [exact Hb |].
    split.
    + simpl in Hrow. now injection Hrow as <-.
    + apply Hhalf. reflexivity.
  - eexists _, _.
    match goal with |- ?P /\ _ => assert (E : P) end.
    { eapply (script_short small_env "annotations"
                (firstn 2 sample_annotations) sample_model);
        try reflexivity; [exact small_env_readable | simpl; lia]. }
    split; [exact E |].
    match goal with |- ?P /\ _ => assert (Hin : P) end.
    { pose proof (proj2 (proj2 predicted_class_threshold)
                    small_env "annotations" (firstn 2 sample_annotations)
                    sample_model _ _ _ _ _ _ eq_refl eq_refl
                    small_env_readable eq_refl eq_refl eq_refl eq_refl
                    eq_refl eq_refl) as Hlive.
      rewrite E in Hlive. exact Hlive. }
    split; [exact Hin |].
    destruct (proj1 (proj2 predicted_class_threshold) small_env _ _ _ E Hin)
      as (content & d & model & pb & pc & Hopen & Hjson & Hmodel & Hpred
          & Hrep).
    injection Hopen as <-. injection Hjson as <-. injection Hmodel as <-.
    injection Hpred as _ <-.
    exact Hrep.
Defined.
